(** * docs/plantuml/generate_docs.py: PlantUML to Markdown documentation generator

    A shallow embedding of the generator script, and the properties of its
    title extractor, metadata resolution, renderer invocation, page and
    index composers and orchestrator.

    - Python strings are sequences of Unicode code points: [str] is
      [list N]. The string constants of the script are written as UTF-8
      literals and decoded by [py].
    - The script runs in a monad of state and exceptions. The state is the
      world outside (file system and renderer, behind the interface [OS])
      and the trace of what the run printed and called.
    - An exception is an instance of a subclass of [Exception], which is what
      [except Exception] catches; interrupts are outside the model. Writing
      a line to standard output is taken not to raise.
    - [pathlib] is followed as in CPython 3.8 to 3.12 on POSIX. *)

From Stdlib Require Import NArith Ascii String Decimal DecimalString.
From stdpp Require Import base list strings gmap.

Local Open Scope N_scope.

(** ** Python strings *)

Abbreviation str := (list N).

(** Decoder of the UTF-8 bytes of a literal into code points. *)
Fixpoint utf8_decode (bs : list N) : str :=
  match bs with
  | [] => []
  | b0 :: t0 =>
      if b0 <? 0x80 then b0 :: utf8_decode t0
      else if b0 <? 0xE0 then
        match t0 with
        | b1 :: t1 => ((b0 mod 0x20) * 0x40 + b1 mod 0x40) :: utf8_decode t1
        | _ => []
        end
      else if b0 <? 0xF0 then
        match t0 with
        | b1 :: b2 :: t2 =>
            ((b0 mod 0x10) * 0x1000 + (b1 mod 0x40) * 0x40 + b2 mod 0x40)
              :: utf8_decode t2
        | _ => []
        end
      else
        match t0 with
        | b1 :: b2 :: b3 :: t3 =>
            ((b0 mod 0x08) * 0x40000 + (b1 mod 0x40) * 0x1000
             + (b2 mod 0x40) * 0x40 + b3 mod 0x40) :: utf8_decode t3
        | _ => []
        end
  end.

Definition py (s : string) : str :=
  utf8_decode (map Byte.to_N (list_byte_of_string s)).

(** [str.isspace] on one code point (the interpreter's whitespace table);
    it is the class behind [\s] in a [str] pattern and behind [str.strip()]. *)
Definition isspace (c : N) : bool :=
  ((0x09 <=? c) && (c <=? 0x0D)) || ((0x1C <=? c) && (c <=? 0x20))
  || (c =? 0x85) || (c =? 0xA0) || (c =? 0x1680)
  || ((0x2000 <=? c) && (c <=? 0x200A))
  || (c =? 0x2028) || (c =? 0x2029) || (c =? 0x202F) || (c =? 0x205F)
  || (c =? 0x3000).

Definition newline : N := 0x0A.

(** The class of [.] without DOTALL: every character but the line feed. *)
Definition dot (c : N) : bool := negb (c =? newline).

Fixpoint lstrip (s : str) : str :=
  match s with
  | c :: s' => if isspace c then lstrip s' else s
  | [] => []
  end.

Definition rstrip (s : str) : str := reverse (lstrip (reverse s)).

(** [s.strip()] *)
Definition strip (s : str) : str := rstrip (lstrip s).

(** [s.startswith(p)] and [p in s] *)
Fixpoint startswith (p s : str) : bool :=
  match p, s with
  | [], _ => true
  | a :: p', b :: s' => (a =? b) && startswith p' s'
  | _ :: _, [] => false
  end.

Fixpoint str_in (p s : str) : bool :=
  startswith p s || match s with [] => false | _ :: s' => str_in p s' end.

(** ** Exceptions and results *)

(** An instance of a subclass of [Exception]: its class and [str(e)]. *)
Inductive Exception : Type := Exc (cls : string) (msg : str).

Definition exc_class (e : Exception) : string := let 'Exc c _ := e in c.
Definition exc_str (e : Exception) : str := let 'Exc _ m := e in m.

Inductive Result (A : Type) : Type :=
| Ok (a : A)
| Raise (e : Exception).
Arguments Ok {A} a.
Arguments Raise {A} e.

(** ** The fragment of [re] the script uses *)

Module Re.

Inductive regex : Type :=
| Chr (c : N)                 (* a literal character *)
| Rep1 (p : N -> bool)        (* X+ (greedy) for a one-character class X *)
| Cat (r1 r2 : regex)
| Grp (r : regex).            (* the capturing group, number 1 *)

(** A match object, as far as the script reads it: [group(1)], which is
    [None] when the group took no part in the match. *)
Record Match : Type := mkMatch { group1 : option str }.

Section Matcher.
Context {R : Type}.

(** Greedy repetition with backtracking: the longest run first, then
    shorter ones while the rest of the pattern fails. *)
Fixpoint rep1 (p : N -> bool) (s : str) (k : str -> option R) : option R :=
  match s with
  | c :: s' =>
      if p c then
        match rep1 p s' k with
        | Some m => Some m
        | None => k s'
        end
      else None
  | [] => None
  end.

Fixpoint rmatch (r : regex) (s : str) (g : option str)
    (k : str -> option str -> option R) : option R :=
  match r with
  | Chr c =>
      match s with
      | x :: s' => if x =? c then k s' g else None
      | [] => None
      end
  | Rep1 p => rep1 p s (fun s' => k s' g)
  | Cat r1 r2 => rmatch r1 s g (fun s' g' => rmatch r2 s' g' k)
  | Grp r1 =>
      rmatch r1 s g
        (fun s' _ => k s' (Some (take (length s - length s')%nat s)))
  end.

End Matcher.

(** [pattern.match] at the start of [s] *)
Definition match_here (r : regex) (s : str) : option Match :=
  rmatch r s None (fun _ g => Some (mkMatch g)).

(** [re.search]: the match at the leftmost position that has one. *)
Fixpoint search (r : regex) (s : str) : option Match :=
  match match_here r s with
  | Some m => Some m
  | None =>
      match s with
      | [] => None
      | _ :: s' => search r s'
      end
  end.

Fixpoint lit (s : str) (r : regex) : regex :=
  match s with
  | [] => r
  | c :: s' => Cat (Chr c) (lit s' r)
  end.

End Re.

(** ** [extract_title_from_puml] *)

Definition title_kw : str := Eval vm_compute in py "title".

(** [r'title\s+(.+)'] *)
Definition title_re : Re.regex :=
  Re.lit title_kw (Re.Cat (Re.Rep1 isspace) (Re.Grp (Re.Rep1 dot))).

Definition untitled : str := Eval vm_compute in py "Untitled Diagram".

Definition extract_title_from_puml (puml_content : str) : Result str :=
  match Re.search title_re puml_content with
  | Some m =>
      match Re.group1 m with
      | Some g => Ok (strip g)
      | None =>
          Raise (Exc "AttributeError"
                   (py "'NoneType' object has no attribute 'strip'"))
      end
  | None => Ok untitled
  end.


(** ** The static metadata table *)

Record Metadata : Type := mkMetadata { title : str; description : str }.

(** The entries of the [DIAGRAM_DESCRIPTIONS] literal, in its order. *)
Definition DIAGRAM_DESCRIPTIONS_items : list (str * Metadata) := [
  (py "senzu-ai-backend-architecture",
   {| title := py "Backend Architecture";
      description := py "
This diagram illustrates the high-level backend architecture of Senzu AI, showing the main components
and their interactions. The system follows a microservices architecture with clear separation of concerns.

### Key Components:
- **API Gateway**: Entry point for all client requests, handles routing and authentication
- **Inference Service**: Orchestrates the prediction workflow
- **Feature Service**: Handles feature engineering and storage
- **Model Service**: Manages ML model lifecycle and inference
- **Data Ingestion Service**: Fetches data from external sports data providers
- **Data Layer**: PostgreSQL for relational data, Redis for caching, S3 for data lake storage
" |});
  (py "senzu-ai-class-diagram",
   {| title := py "Domain Model";
      description := py "
The domain model defines the core entities and their relationships in the Senzu AI system.
This class diagram shows the data structures used throughout the application.

### Core Entities:
- **User**: System users with authentication
- **Sport**: Supported sports (NBA, NFL, etc.)
- **Team**: Sports teams with external provider IDs
- **Match**: Sporting events with teams, scores, and status
- **OddsSnapshot**: Betting odds from various providers at specific timestamps
- **FeatureVector**: Computed features for ML inference
- **ModelRun**: Trained model versions with metadata
- **Prediction**: Probability predictions and expected value calculations
- **BacktestResult**: Historical model performance metrics
" |});
  (py "senzu-ai-sequence-diagram",
   {| title := py "Prediction Request Flow";
      description := py "
This sequence diagram shows the high-level flow of a prediction request from a user through the system.
It demonstrates how different services collaborate to generate predictions.

### Flow Steps:
1. Client sends prediction request to API Gateway
2. Authentication is verified
3. Cache is checked for existing predictions
4. If cache miss, Inference Service orchestrates prediction
5. Feature Service builds feature vector from match data
6. Model Service loads model and runs inference
7. Prediction is stored and cached
8. Response is returned to client

### Performance Optimizations:
- Redis caching reduces redundant computations
- Feature vectors are reused across predictions
- Models are kept warm in memory
" |});
  (py "senzu-ai-deployment-diagram",
   {| title := py "Deployment Architecture";
      description := py "
The deployment diagram shows how the Senzu AI system is deployed in a cloud environment
(AWS/GCP) with infrastructure components and their relationships.

### Infrastructure Components:
- **API / Web Layer**: API Gateway and Auth Service (containerized)
- **Backend Services**: Inference, Feature, Model, and Ingestion services (containerized)
- **Persistence & Cache**: PostgreSQL RDS, S3 Data Lake, Redis Cache
- **ML Pipeline**: Airflow/Prefect for orchestration, MLflow for model registry

### Scalability Considerations:
- Services are containerized for easy scaling
- Database uses RDS for managed operations
- S3 provides unlimited storage for historical data
- Redis cache improves read performance
" |});
  (py "senzu-ai-database-schema",
   {| title := py "Database Schema (ER Diagram)";
      description := py "
The database schema defines all tables, columns, relationships, and indexes used in the PostgreSQL database.
This ER diagram provides a comprehensive view of data storage and relationships.

### Schema Organization:
- **User & Auth**: User authentication and refresh tokens
- **Sports Domain**: Sports, teams, and matches
- **Odds Data**: Time-series odds snapshots (partitioned by month)
- **Feature Store**: Computed feature vectors with versioning
- **Model Management**: Model metadata, evaluations, and backtests
- **Predictions**: Prediction results (partitioned by month)
- **Data Ingestion Tracking**: Job status and error logging

### Performance Optimizations:
- Strategic indexing on frequently queried columns
- Partitioning for large tables (odds_snapshots, predictions)
- JSONB columns for flexible metadata storage
" |});
  (py "senzu-ai-service-interfaces",
   {| title := py "Service Interface Definitions";
      description := py "
This diagram defines the interfaces (contracts) for all services in the system. It shows
the methods each service exposes and the data transfer objects (DTOs) they use.

### Service Interfaces:
- **IAuthService**: User authentication and token management
- **IInferenceService**: Prediction orchestration and EV calculation
- **IFeatureService**: Feature engineering and validation
- **IModelService**: Model loading, inference, and evaluation
- **IDataIngestionService**: External data fetching and validation
- **Repository Interfaces**: Data access for matches, odds, predictions, features
- **ICacheService**: Caching operations with pattern invalidation

### Design Principles:
- Clear separation of concerns
- Dependency injection friendly
- Testable interfaces
- Comprehensive type definitions
" |});
  (py "senzu-ai-prediction-flow-detailed",
   {| title := py "Detailed Prediction Request Flow";
      description := py "
This comprehensive sequence diagram details the complete prediction flow from authentication
through feature building, model inference, EV calculation, and caching.

### Detailed Steps:
1. **Authentication Phase**: Token verification
2. **Cache Check**: Redis lookup for existing predictions
3. **Feature Building**:
   - Fetch match and team data
   - Retrieve historical matches
   - Compute form, H2H, and odds features
   - Validate and store feature vector
4. **Model Inference**:
   - Load active model from cache or S3
   - Run inference on feature vector
   - Calculate confidence intervals
5. **EV Calculation**: Compute expected value from probabilities and odds
6. **Persistence**: Store predictions in database
7. **Caching**: Cache results in Redis
8. **Monitoring**: Log metrics and latency

### Performance Metrics:
- Feature building: ~200-500ms
- Model inference: ~50-100ms
- Total latency: ~300-700ms (cache miss)
- Cache hit: ~10-20ms
" |});
  (py "senzu-ai-model-deployment-flow",
   {| title := py "Model Training & Deployment Flow";
      description := py "
This sequence diagram shows the end-to-end flow of training a new model and deploying it to production.

### Training Pipeline Steps:
1. **Data Preparation**: Export features and labels from feature store and data lake
2. **Data Splitting**: Time-based split (train/validation/test)
3. **Model Training**: Train with hyperparameters, early stopping, metric tracking
4. **Model Evaluation**: Calculate accuracy, log loss, Brier score, calibration
5. **Backtesting**: Simulate betting strategy to compute ROI and Sharpe ratio
6. **Model Registration**: Save artifact to S3, register in MLflow and database

### Deployment Steps:
1. **Model Review**: ML engineer reviews metrics and performance
2. **Model Activation**: Atomically switch active model in database
3. **Cache Invalidation**: Clear cached models and predictions
4. **Model Warming**: Pre-load new model into memory/cache
5. **Monitoring Setup**: Configure drift detection and performance tracking

### Safety Measures:
- Transaction-based activation prevents inconsistencies
- Rollback procedure documented
- Continuous monitoring for performance degradation
" |});
  (py "senzu-ai-ingestion-sequence",
   {| title := py "Data Ingestion Sequence (Scheduled Job)";
      description := py "
This sequence diagram illustrates the complete data ingestion process, from fetching data
from external providers to storing it in the database and triggering downstream processes.

### Ingestion Steps:
1. **Job Initialization**: Create job record, initialize API client
2. **Fetch Match Schedule**: GET request to provider API with retry logic
3. **Fetch Odds Data**: Retrieve current odds for all markets
4. **Data Validation**: Schema validation, duplicate detection
5. **Data Transformation**: Map external IDs, convert formats, standardize names
6. **Team Management**: Create new teams if not found
7. **Upsert Matches**: Insert new matches or update existing ones
8. **Bulk Insert Odds**: Batch insert odds snapshots for performance
9. **Cache Invalidation**: Clear prediction caches for updated matches
10. **Trigger Feature Computation**: Queue async jobs for new/updated matches
11. **Job Completion**: Update job status and log metrics

### Error Handling:
- Exponential backoff for retryable errors (500, 502, 503, 429)
- Skip invalid records and continue with valid ones
- Transaction rollback on fatal errors
- Alert on job failures
" |});
  (py "senzu-ai-feature-pipeline",
   {| title := py "Feature Engineering Pipeline";
      description := py "
This activity diagram shows the feature engineering pipeline, which transforms raw match
and odds data into feature vectors suitable for ML inference.

### Feature Categories:
1. **Team Form Features**: Win rates, points per game, momentum, home/away splits
2. **Head-to-Head Features**: Historical matchup statistics and trends
3. **Market Odds Features**: Implied probabilities, odds movement, market consensus
4. **Contextual Features**: Rest days, season progress, time of day, home advantage
5. **Statistical Features**: Expected goals (xG), possession, shot efficiency

### Pipeline Phases:
1. **Data Retrieval**: Fetch match, team, odds, and historical data
2. **Feature Computation**: Parallel computation of feature categories
3. **Aggregation**: Combine all features into single vector
4. **Transformation**: Normalize, scale, encode, handle missing values
5. **Validation**: Check for NaN/Inf, validate ranges and schema
6. **Storage**: Save to database and cache in Redis
7. **Export**: Queue for S3 data lake export (for training)

### Performance:
- Parallel feature computation reduces latency
- Caching prevents redundant calculations
- Typical computation time: 200-500ms
" |});
  (py "senzu-ai-data-ingestion-workflow",
   {| title := py "Data Ingestion Workflow";
      description := py "
This activity diagram provides an overview of the data ingestion workflow, showing decision
points, error handling, and post-processing actions.

### Workflow Phases:
1. **Data Fetching**: Call external provider APIs with authentication and rate limiting
2. **Data Validation**: Schema validation, duplicate detection, error filtering
3. **Data Transformation**: Map to internal schema, enrich with metadata
4. **Data Persistence**: Transactional upsert of matches and bulk insert of odds
5. **Post-Processing**: Feature computation triggering, cache invalidation, metrics tracking

### Error Handling Strategy:
- **Retryable Errors**: Network timeouts, rate limits (429), server errors (500/502/503)
- **Non-Retryable Errors**: Authentication failures (401), bad requests (400)
- **Partial Failures**: Continue with valid records, log invalid records separately

### Trigger Sources:
- Scheduled cron jobs (every 5 minutes)
- Manual API triggers
- Webhooks from providers
- Event-driven (match status changes)

### Performance Considerations:
- Bulk operations reduce database round trips
- Batch size typically 1000 records per insert
- Transaction management ensures data consistency
" |})
].

Definition DIAGRAM_DESCRIPTIONS : gmap str Metadata :=
  list_to_map DIAGRAM_DESCRIPTIONS_items.

(** Lines 491-498 of [main]: the title is extracted from the content read,
    then [DIAGRAM_DESCRIPTIONS.get(diagram_name, {...})]. *)
Definition fallback_metadata (extracted_title : str) : Metadata :=
  {| title := extracted_title;
     description := py "Documentation for " ++ extracted_title ++ py "." |}.

Definition resolve_metadata (diagram_name puml_content : str) : Result Metadata :=
  match extract_title_from_puml puml_content with
  | Ok extracted_title =>
      Ok (default (fallback_metadata extracted_title)
            (DIAGRAM_DESCRIPTIONS !! diagram_name))
  | Raise e => Raise e
  end.

(** ** Paths *)

(** A [pathlib.Path] as its [parts]: the root ["/"] comes first in an
    absolute path. Every right operand of [/] in the script is one file
    name (a literal, or built from a stem), so [/] adds one part. *)
Abbreviation Path := (list str).

Definition slash : N := 0x2F.
Definition full_stop : N := 0x2E.

Definition is_absolute (p : Path) : bool :=
  match p with
  | r :: _ => bool_decide (r = [slash])
  | [] => false
  end.

Definition path_div (p : Path) (name : str) : Path := p ++ [name].

(** [p.name] *)
Definition path_name (p : Path) : str :=
  match p with
  | [r] => if bool_decide (r = [slash]) then [] else r
  | _ => List.last p []
  end.

Fixpoint find_index (c : N) (s : str) : option nat :=
  match s with
  | [] => None
  | x :: s' => if x =? c then Some O else S <$> find_index c s'
  end.

(** [s.rfind(c)], [None] for -1 *)
Definition rfind (c : N) (s : str) : option nat :=
  (λ j, length s - 1 - j)%nat <$> find_index c (reverse s).

(** [p.stem]: the name without its last suffix; a leading or a trailing
    full stop starts no suffix. *)
Definition path_stem (p : Path) : str :=
  let name := path_name p in
  match rfind full_stop name with
  | Some i =>
      if (0 <? i)%nat && (i <? length name - 1)%nat then take i name else name
  | None => name
  end.

Definition join (sep : str) (l : list str) : str :=
  match l with
  | [] => []
  | x :: l' => x ++ concat (map (λ y, sep ++ y) l')
  end.

(** [str(p)] *)
Definition path_str (p : Path) : str :=
  match p with
  | [] => [full_stop]
  | r :: rest =>
      if bool_decide (r = [slash]) then slash :: join [slash] rest
      else join [slash] p
  end.

(** Order of [str] and of [Path]: lexicographic, by code point. *)
Fixpoint lex_leb {A : Type} (leb : A → A → bool) (a b : list A) : bool :=
  match a, b with
  | [], _ => true
  | _ :: _, [] => false
  | x :: a', y :: b' =>
      if leb x y then (if leb y x then lex_leb leb a' b' else true) else false
  end.

Definition str_leb : str → str → bool := lex_leb N.leb.
Definition path_leb : Path → Path → bool := lex_leb str_leb.

Fixpoint insert_sorted (p : Path) (l : list Path) : list Path :=
  match l with
  | [] => [p]
  | q :: l' => if path_leb p q then p :: l else q :: insert_sorted p l'
  end.

(** [sorted(paths)] *)
Definition sorted (l : list Path) : list Path := foldr insert_sorted [] l.

(** ** Small string helpers *)

Definition nl : str := [newline].

(** [s * n] *)
Definition str_mul (s : str) (n : nat) : str := concat (replicate n s).

(** [str(n)] for a length *)
Definition str_of_nat (n : nat) : str :=
  py (NilEmpty.string_of_uint (Nat.to_uint n)).

Definition ascii_lower (c : N) : N :=
  if (0x41 <=? c) && (c <=? 0x5A) then c + 0x20 else c.

Definition is_ascii (c : N) : bool := c <? 0x80.

(** ** What the script takes from the interpreter and from its invocation *)

Class Env : Type := {
  (** [str.lower] on a string that has a non-ASCII character (the Unicode
      database's mapping; an all-ASCII string is lowered letter by letter) *)
  unicode_lower : str → str;
  (** [os.path.relpath(path, start)], the working directory being fixed *)
  os_path_relpath : Path → Path → str;
  (** the working directory, for [Path.absolute] *)
  cwd : Path;
  (** [Path(__file__).parent] *)
  script_dir : Path;
}.

(** The renderer's [subprocess.CompletedProcess]. *)
Record CompletedProcess : Type :=
  mkCompleted { returncode : Z; proc_stdout : str; proc_stderr : str }.

(** The file system and the external renderer: each call may raise and may
    change the world. *)
Class OS (World : Type) : Type := {
  (** [dir.glob(pattern)] *)
  os_glob : Path → str → World → list Path;
  (** [p.read_text()] *)
  os_read_text : Path → World → Result str;
  (** [p.mkdir(parents=True, exist_ok=True)] *)
  os_mkdir : Path → World → Result () * World;
  (** [subprocess.run(cmd, capture_output=True, text=True)] *)
  os_run : list str → World → Result CompletedProcess * World;
  (** [p.exists()] *)
  os_exists : Path → World → bool;
  (** [p.write_text(data)] *)
  os_write_text : Path → str → World → Result () * World;
}.

(** What a run does, in order: the lines printed and the calls made. *)
Inductive Event : Type :=
| EvPrint (line : str)
| EvGlob (dir : Path) (pattern : str)
| EvReadText (p : Path)
| EvMkdir (p : Path)
| EvRun (cmd : list str)
| EvExists (p : Path)
| EvWriteText (p : Path) (data : str).

Record State (World : Type) : Type :=
  mkState { world : World; trace : list Event }.
Arguments mkState {World} world trace.
Arguments world {World} s.
Arguments trace {World} s.

(** ** The monad of the script: state and exceptions *)

Definition M (World A : Type) : Type := State World → Result A * State World.

Definition run {World A : Type} (m : M World A) (st : State World) :
    Result A * State World := m st.

#[global] Instance M_ret {World : Type} : MRet (M World) :=
  λ A a st, (Ok a, st).

#[global] Instance M_bind {World : Type} : MBind (M World) :=
  λ A B f m st,
    match m st with
    | (Ok a, st') => f a st'
    | (Raise e, st') => (Raise e, st')
    end.

Definition raise {World A : Type} (e : Exception) : M World A :=
  λ st, (Raise e, st).

Definition lift {World A : Type} (r : Result A) : M World A :=
  λ st, (r, st).

(** [try: body  except Exception as e: handler(e)] *)
Definition try_except {World A : Type} (body : M World A)
    (handler : Exception → M World A) : M World A :=
  λ st,
    match body st with
    | (Ok a, st') => (Ok a, st')
    | (Raise e, st') => handler e st'
    end.

Definition record {World : Type} (ev : Event) (st : State World) : State World :=
  mkState (world st) (trace st ++ [ev]).

Section Generator.
Context `{Env} {World : Type} `{!OS World}.

(** [print(line)]. Standard output is taken to accept every line, as a
    UTF-8 terminal that stays open does: the [UnicodeEncodeError] and the
    [BrokenPipeError] that [print] raises on other outputs are outside the
    model, and no property below speaks of them. *)
Definition print (line : str) : M World () :=
  λ st, (Ok (), record (EvPrint line) st).

Definition glob (dir : Path) (pattern : str) : M World (list Path) :=
  λ st, (Ok (os_glob dir pattern (world st)), record (EvGlob dir pattern) st).

Definition read_text (p : Path) : M World str :=
  λ st, (os_read_text p (world st), record (EvReadText p) st).

Definition mkdir (p : Path) : M World () :=
  λ st,
    let '(r, w) := os_mkdir p (world st) in
    (r, mkState w (trace st ++ [EvMkdir p])).

Definition subprocess_run (cmd : list str) : M World CompletedProcess :=
  λ st,
    let '(r, w) := os_run cmd (world st) in
    (r, mkState w (trace st ++ [EvRun cmd])).

Definition exists_ (p : Path) : M World bool :=
  λ st, (Ok (os_exists p (world st)), record (EvExists p) st).

Definition write_text (p : Path) (data : str) : M World () :=
  λ st,
    let '(r, w) := os_write_text p data (world st) in
    (r, mkState w (trace st ++ [EvWriteText p data])).

(** [p.absolute()] *)
Definition absolute (p : Path) : Path :=
  if is_absolute p then p else cwd ++ p.

(** [s.lower()] *)
Definition lower (s : str) : str :=
  if forallb is_ascii s then map ascii_lower s else unicode_lower s.

(** ** Configuration *)

Definition PUML_DIR : Path := path_div script_dir (py "puml").
Definition OUTPUT_IMG_DIR : Path := path_div script_dir (py "images").
Definition OUTPUT_MD_DIR : Path := path_div script_dir (py "md").

(** ** [generate_png_from_puml] *)

(** The value of [cmd]. *)
Definition plantuml_cmd (puml_file output_dir : Path) : list str :=
  [py "plantuml"; py "-tpng"; py "-o";
   path_str (absolute output_dir); path_str (absolute puml_file)].

Definition generate_png_from_puml (puml_file output_dir : Path) : M World Path :=
  mkdir output_dir;;
  let cmd := plantuml_cmd puml_file output_dir in
  result ← subprocess_run cmd;
  if bool_decide (returncode result ≠ 0%Z) then
    raise (Exc "RuntimeError"
             (py "PlantUML conversion failed: " ++ proc_stderr result))
  else
    let png_file := path_div output_dir (path_stem puml_file ++ py ".png") in
    present ← exists_ png_file;
    if negb present then
      raise (Exc "FileNotFoundError"
               (py "Expected PNG file not created: " ++ path_str png_file))
    else mret png_file.

(** ** [generate_markdown_doc] *)

(** The links added under "Related Diagrams" (lines 360-370). *)
Definition architecture_links : str :=
  py "- [Domain Model](./senzu-ai-class-diagram.md)" ++ nl
  ++ py "- [Deployment Architecture](./senzu-ai-deployment-diagram.md)" ++ nl
  ++ py "- [Database Schema](./senzu-ai-database-schema.md)" ++ nl.

Definition flow_links : str :=
  py "- [Backend Architecture](./senzu-ai-backend-architecture.md)" ++ nl
  ++ py "- [Service Interfaces](./senzu-ai-service-interfaces.md)" ++ nl.

Definition class_links : str :=
  py "- [Database Schema](./senzu-ai-database-schema.md)" ++ nl
  ++ py "- [Service Interfaces](./senzu-ai-service-interfaces.md)" ++ nl.

Definition related_diagrams (diagram_name : str) : str :=
  if str_in (py "architecture") (lower diagram_name) then architecture_links
  else if str_in (py "sequence") (lower diagram_name)
          || str_in (py "flow") (lower diagram_name) then flow_links
  else if str_in (py "class") (lower diagram_name) then class_links
  else [].

Definition page_header (title description rel_img_path : str) : str :=
  py "# " ++ title ++ py "

" ++ strip description ++ py "

## Diagram

![" ++ title ++ py "](" ++ rel_img_path ++ py ")

## Related Diagrams

".

Definition page_footer (diagram_name : str) : str :=
  py "
## Source

This documentation was automatically generated from PlantUML diagrams.

- Source file: [`../puml/" ++ diagram_name ++ py ".puml`](../puml/"
  ++ diagram_name ++ py ".puml)
- Image: [`../images/" ++ diagram_name ++ py ".png`](../images/"
  ++ diagram_name ++ py ".png)

## Navigation

Return to [Documentation Index](./README.md)
".

(** The value of [markdown_content] when it is written. *)
Definition markdown_content (diagram_name : str) (png_path : Path)
    (title description : str) (output_dir : Path) : str :=
  let rel_img_path := os_path_relpath png_path output_dir in
  page_header title description rel_img_path
  ++ related_diagrams diagram_name
  ++ page_footer diagram_name.

Definition generate_markdown_doc (diagram_name : str) (png_path : Path)
    (title description : str) (output_dir : Path) : M World Path :=
  mkdir output_dir;;
  let md_file := path_div output_dir (diagram_name ++ py ".md") in
  write_text md_file
    (markdown_content diagram_name png_path title description output_dir);;
  mret md_file.

(** ** [generate_index] *)

Definition index_content : str := py "# Senzu AI Architecture Documentation

This directory contains automatically generated documentation from PlantUML diagrams.
Each document includes a rendered diagram image and detailed descriptions of the components and flows.

## Architecture Diagrams

### System Overview
- [Backend Architecture](./senzu-ai-backend-architecture.md) - High-level system architecture and component interactions
- [Deployment Architecture](./senzu-ai-deployment-diagram.md) - Cloud deployment and infrastructure components

### Data Models
- [Domain Model](./senzu-ai-class-diagram.md) - Core entities and their relationships
- [Database Schema](./senzu-ai-database-schema.md) - Complete database schema with tables, indexes, and partitioning
- [Service Interfaces](./senzu-ai-service-interfaces.md) - Service contracts and DTOs

### Process Flows
- [Prediction Request Flow](./senzu-ai-sequence-diagram.md) - High-level prediction flow
- [Detailed Prediction Flow](./senzu-ai-prediction-flow-detailed.md) - Comprehensive prediction workflow with all steps
- [Data Ingestion Sequence](./senzu-ai-ingestion-sequence.md) - Data ingestion from external providers
- [Data Ingestion Workflow](./senzu-ai-data-ingestion-workflow.md) - Ingestion workflow with decision points

### ML & Features
- [Feature Engineering Pipeline](./senzu-ai-feature-pipeline.md) - Feature computation and transformation flow
- [Model Training & Deployment](./senzu-ai-model-deployment-flow.md) - End-to-end ML model lifecycle

## About

These diagrams provide a comprehensive view of the Senzu AI sports prediction system, covering:
- System architecture and components
- Data models and database design
- API workflows and service interactions
- ML pipeline and feature engineering
- Data ingestion and processing

### Regenerating Documentation

To regenerate this documentation from PlantUML source files:

```bash
cd docs/plantuml
python generate_docs.py
```

### Project Structure

```
docs/plantuml/
├── puml/              # PlantUML source files (.puml)
├── images/            # Generated PNG images
├── md/                # Generated Markdown documentation
├── generate_docs.py   # Documentation generator script
└── README.md          # This file
```

## Navigation

- [Project README](../../README.md)
- [Claude AI Instructions](../CLAUDE.md)
".

Definition generate_index (md_files : list (str * str)) (output_dir : Path) :
    M World Path :=
  let index_file := path_div output_dir (py "README.md") in
  write_text index_file index_content;;
  mret index_file.

(** ** [main] *)

(** The body of the [try] statement for one diagram; it yields the list
    after [generated_docs.append]. *)
Definition try_body (puml_file : Path) (diagram_name : str)
    (metadata : Metadata) (generated_docs : list (str * str)) :
    M World (list (str * str)) :=
  print (py "  → Generating PNG...");;
  png_path ← generate_png_from_puml puml_file OUTPUT_IMG_DIR;
  print (py "  ✓ Created: " ++ path_name png_path);;
  print (py "  → Generating Markdown...");;
  md_path ← generate_markdown_doc diagram_name png_path
              (title metadata) (description metadata) OUTPUT_MD_DIR;
  print (py "  ✓ Created: " ++ path_name md_path);;
  let generated_docs := generated_docs ++ [(diagram_name, title metadata)] in
  print [];;
  mret generated_docs.

(** The [except Exception as e] clause. *)
Definition except_clause (generated_docs : list (str * str)) (e : Exception) :
    M World (list (str * str)) :=
  print (py "  ✗ Error: " ++ exc_str e);;
  print [];;
  mret generated_docs.

(** The statements of the loop body before the [try]. *)
Definition prepare (puml_file : Path) : M World Metadata :=
  let diagram_name := path_stem puml_file in
  print (py "Processing: " ++ diagram_name);;
  puml_content ← read_text puml_file;
  lift (resolve_metadata diagram_name puml_content).

(** [for puml_file in puml_files: ...] *)
Fixpoint for_puml_files (puml_files : list Path)
    (generated_docs : list (str * str)) : M World (list (str * str)) :=
  match puml_files with
  | [] => mret generated_docs
  | puml_file :: rest =>
      let diagram_name := path_stem puml_file in
      metadata ← prepare puml_file;
      generated_docs ←
        try_except (try_body puml_file diagram_name metadata generated_docs)
                   (except_clause generated_docs);
      for_puml_files rest generated_docs
  end.

(** The statements of [main] after the loop. *)
Definition finish (generated_docs : list (str * str)) : M World () :=
  print (py "Generating index...");;
  index_path ← generate_index generated_docs OUTPUT_MD_DIR;
  print (py "✓ Created: " ++ path_name index_path);;
  print [];;
  print (str_mul (py "=") 50);;
  print (py "Documentation generation complete!");;
  print (py "  - " ++ str_of_nat (length generated_docs)
         ++ py " diagrams processed");;
  print (py "  - Images: " ++ path_str OUTPUT_IMG_DIR);;
  print (py "  - Markdown: " ++ path_str OUTPUT_MD_DIR);;
  print (py "  - Index: " ++ path_str index_path).

Definition main : M World () :=
  print (py "Senzu AI Documentation Generator");;
  print (str_mul (py "=") 50);;
  found ← glob PUML_DIR (py "*.puml");
  let puml_files := sorted found in
  if bool_decide (puml_files = []) then
    print (py "No .puml files found in " ++ path_str PUML_DIR)
  else
    print (py "Found " ++ str_of_nat (length puml_files) ++ py " PlantUML files");;
    print [];;
    generated_docs ← for_puml_files puml_files [];
    finish generated_docs.

End Generator.

(** ** The title directive, declaratively *)

(** [content] holds the keyword at offset [length pre], then the white space
    [ws], then the trailing text [g] on one line. *)
Definition directive_at (content pre ws g rest : str) : Prop :=
  content = pre ++ title_kw ++ ws ++ g ++ rest
  ∧ ws ≠ [] ∧ Forall (λ c, isspace c) ws
  ∧ g ≠ [] ∧ Forall (λ c, dot c) g.

Definition has_directive (content : str) : Prop :=
  ∃ pre ws g rest, directive_at content pre ws g rest.

(** The first match of the pattern: the leftmost offset that has a
    directive, there the longest white space that leaves a trailing text,
    and the longest trailing text. *)
Definition first_match (content pre ws g rest : str) : Prop :=
  directive_at content pre ws g rest
  ∧ (∀ pre' ws' g' rest', directive_at content pre' ws' g' rest' →
       (length pre ≤ length pre')%nat)
  ∧ (∀ ws' g' rest', directive_at content pre ws' g' rest' →
       (length ws' ≤ length ws)%nat
       ∧ (length ws' = length ws → (length g' ≤ length g)%nat)).

(** [kw in s], declaratively *)
Definition contains (kw s : str) : Prop := ∃ a b, s = a ++ kw ++ b.

(** ** Vocabulary for runs of the script *)

Inductive PageOutcome : Type :=
| Generated
| Caught (e : Exception).

Section Runs.
Context `{Env} {World : Type} `{!OS World}.

(** The events a computation adds to the trace. *)
Definition events_of {A : Type} (m : M World A) (st : State World) : list Event :=
  drop (length (trace st)) (trace (snd (m st))).

(** The value of [puml_files] for a run started in [st]. *)
Definition discovered (st : State World) : list Path :=
  sorted (os_glob PUML_DIR (py "*.puml") (world st)).

(** The state in which the loop of [main] starts. *)
Definition after_header (st : State World) : State World :=
  mkState (world st)
    (trace st
     ++ [EvPrint (py "Senzu AI Documentation Generator");
         EvPrint (str_mul (py "=") 50);
         EvGlob PUML_DIR (py "*.puml");
         EvPrint (py "Found " ++ str_of_nat (length (discovered st))
                  ++ py " PlantUML files");
         EvPrint []]).

(** The state after the [except] clause ran on [e]. *)
Definition after_except (e : Exception) (st : State World) : State World :=
  record (EvPrint []) (record (EvPrint (py "  ✗ Error: " ++ exc_str e)) st).

(** The sources the loop reaches, each with its resolved metadata and with
    how its [try] statement ended; the list stops before a source whose
    reading raises. *)
Fixpoint attempts (puml_files : list Path) (generated_docs : list (str * str))
    (st : State World) : list (Path * Metadata * PageOutcome) :=
  match puml_files with
  | [] => []
  | f :: rest =>
      match prepare f st with
      | (Raise _, _) => []
      | (Ok md, st1) =>
          match try_body f (path_stem f) md generated_docs st1 with
          | (Ok docs', st2) => (f, md, Generated) :: attempts rest docs' st2
          | (Raise e, st2) =>
              (f, md, Caught e)
                :: attempts rest generated_docs (after_except e st2)
          end
      end
  end.

(** The pages generated among them, as [(name, title)]. *)
Definition pages (log : list (Path * Metadata * PageOutcome)) : list (str * str) :=
  omap (λ a, match a with
             | (f, md, Generated) => Some (path_stem f, title md)
             | (_, _, Caught _) => None
             end) log.

(** A computation only adds events to the trace. *)
Definition extends {A : Type} (m : M World A) : Prop :=
  ∀ st, trace st `prefix_of` trace (snd (m st)).

End Runs.

(** ** A simulated host, to run the script on concrete inputs *)

Module Sim.

(** Files with their text; the sources whose reading raises; the sources
    (by the path given to the renderer) on which the renderer stub exits 1,
    and those on which it exits 0 without writing an image. *)
Record SimWorld : Type := mkSim {
  sim_files : list (Path * str);
  sim_unreadable : list Path;
  sim_broken : list str;
  sim_silent : list str;
}.

Fixpoint split_on (c : N) (s : str) : list str :=
  match s with
  | [] => [[]]
  | x :: s' =>
      match split_on c s' with
      | w :: ws => if x =? c then [] :: w :: ws else (x :: w) :: ws
      | [] => [[x]]
      end
  end.

(** The path a string spells. *)
Definition parse_path (s : str) : Path :=
  let parts := filter (λ w, w ≠ []) (split_on slash s) in
  if startswith [slash] s then [slash] :: parts else parts.

Definition parent (p : Path) : Path := take (length p - 1)%nat p.

Definition endswith (suffix s : str) : bool :=
  startswith (reverse suffix) (reverse s).

Fixpoint lookup_file (p : Path) (files : list (Path * str)) : option str :=
  match files with
  | [] => None
  | (q, text) :: files' =>
      if bool_decide (p = q) then Some text else lookup_file p files'
  end.

Definition put_file (p : Path) (text : str) (w : SimWorld) : SimWorld :=
  mkSim ((p, text) :: sim_files w) (sim_unreadable w) (sim_broken w)
        (sim_silent w).

Definition sim_glob (dir : Path) (pattern : str) (w : SimWorld) : list Path :=
  filter (λ p, parent p = dir ∧ endswith (drop 1 pattern) (path_name p))
         (map fst (sim_files w)).

Definition sim_read_text (p : Path) (w : SimWorld) : Result str :=
  if bool_decide (p ∈ sim_unreadable w) then
    Raise (Exc "PermissionError" (py "[Errno 13] Permission denied"))
  else
    match lookup_file p (sim_files w) with
    | Some text => Ok text
    | None => Raise (Exc "FileNotFoundError" (py "[Errno 2] No such file"))
    end.

(** The renderer stub. *)
Definition sim_run (cmd : list str) (w : SimWorld) :
    Result CompletedProcess * SimWorld :=
  match cmd with
  | [_; _; _; out; src] =>
      if bool_decide (src ∈ sim_broken w) then
        (Ok (mkCompleted 1 [] (py "Syntax error in diagram")), w)
      else if bool_decide (src ∈ sim_silent w) then
        (Ok (mkCompleted 0 [] []), w)
      else
        let png := path_div (parse_path out)
                     (path_stem (parse_path src) ++ py ".png") in
        (Ok (mkCompleted 0 [] []), put_file png (py "PNG") w)
  | _ => (Raise (Exc "ValueError" (py "bad command line")), w)
  end.

#[global] Instance sim_os : OS SimWorld := {|
  os_glob := sim_glob;
  os_read_text := sim_read_text;
  os_mkdir := λ _ w, (Ok (), w);
  os_run := sim_run;
  os_exists := λ p w, bool_decide (p ∈ map fst (sim_files w));
  os_write_text := λ p text w, (Ok (), put_file p text w);
|}.

Fixpoint relative_parts (p start : Path) : Path :=
  match p, start with
  | x :: p', y :: start' =>
      if bool_decide (x = y) then relative_parts p' start'
      else replicate (length start) (py "..") ++ p
  | _, _ => replicate (length start) (py "..") ++ p
  end.

Definition sim_cwd : Path := [py "/"; py "repo"].

Definition sim_absolute (p : Path) : Path :=
  if is_absolute p then p else sim_cwd ++ p.

Definition sim_relpath (p start : Path) : str :=
  match relative_parts (sim_absolute p) (sim_absolute start) with
  | [] => [full_stop]
  | parts => join [slash] parts
  end.

#[global] Instance sim_env : Env := {|
  unicode_lower := λ s, s;
  os_path_relpath := sim_relpath;
  cwd := sim_cwd;
  script_dir := [py "/"; py "repo"; py "docs"; py "plantuml"];
|}.

Definition puml (name : string) : Path := path_div PUML_DIR (py name ++ py ".puml").

Definition three_sources : list (Path * str) :=
  [ (puml "gamma-unrelated", py "@startuml
title Gamma
@enduml
");
    (puml "beta-sequence", py "@startuml
title Beta Sequence
@enduml
");
    (puml "alpha-architecture", py "@startuml
Alice -> Bob
@enduml
") ].

(** Every source renders. *)
Definition all_good : State SimWorld := mkState (mkSim three_sources [] [] []) [].

(** The renderer exits 1 on [beta-sequence]. *)
Definition beta_broken : State SimWorld :=
  mkState (mkSim three_sources [] [path_str (puml "beta-sequence")] []) [].

(** The renderer exits 0 on [beta-sequence] and writes no image. *)
Definition beta_silent : State SimWorld :=
  mkState (mkSim three_sources [] [] [path_str (puml "beta-sequence")]) [].

(** [beta-sequence.puml] cannot be read; the renderer fails on alpha. *)
Definition beta_unreadable : State SimWorld :=
  mkState (mkSim three_sources [puml "beta-sequence"]
             [path_str (puml "alpha-architecture")] []) [].

(** The lines printed during a run. *)
Definition printed (tr : list Event) : list str :=
  omap (λ ev, match ev with EvPrint line => Some line | _ => None end) tr.

(** The files written during a run. *)
Definition written (tr : list Event) : list Path :=
  omap (λ ev, match ev with EvWriteText p _ => Some p | _ => None end) tr.

End Sim.

(** ** Sample inputs *)

Definition sample_puml : str := py "@startuml
title   Order Flow  
Alice -> Bob
@enduml
".

Definition subtitle_pre : str := py "@startuml
sub".
Definition subtitle_rest : str := py "
title Real Title
@enduml
".

Definition sample_compose : M Sim.SimWorld Path :=
  generate_markdown_doc (py "beta-sequence")
    (path_div OUTPUT_IMG_DIR (py "beta-sequence.png"))
    (py "Beta Sequence") (py "Documentation for Beta Sequence.") OUTPUT_MD_DIR.

Definition sample_page : str :=
  markdown_content (py "beta-sequence")
    (path_div OUTPUT_IMG_DIR (py "beta-sequence.png"))
    (py "Beta Sequence") (py "Documentation for Beta Sequence.") OUTPUT_MD_DIR.

Definition sample_page_text : str := py "# Beta Sequence

Documentation for Beta Sequence.

## Diagram

![Beta Sequence](../images/beta-sequence.png)

## Related Diagrams

- [Backend Architecture](./senzu-ai-backend-architecture.md)
- [Service Interfaces](./senzu-ai-service-interfaces.md)

## Source

This documentation was automatically generated from PlantUML diagrams.

- Source file: [`../puml/beta-sequence.puml`](../puml/beta-sequence.puml)
- Image: [`../images/beta-sequence.png`](../images/beta-sequence.png)

## Navigation

Return to [Documentation Index](./README.md)
".

From stdpp Require Import sorting.

Local Open Scope N_scope.

(** ** Vocabulary for the further properties *)

(** No white space at either end. *)
Definition trimmed (t : str) : Prop :=
  (∀ c t', t = c :: t' → isspace c = false)
  ∧ (∀ t' c, t = t' ++ [c] → isspace c = false).

Definition ascii_upper (c : N) : N :=
  if (0x61 <=? c) && (c <=? 0x7A) then c - 0x20 else c.

(** The renderer command lines, the files read and the files written that a
    list of events holds, in order. *)
Definition renders (evs : list Event) : list (list str) :=
  omap (λ ev, match ev with EvRun cmd => Some cmd | _ => None end) evs.

Definition reads (evs : list Event) : list Path :=
  omap (λ ev, match ev with EvReadText p => Some p | _ => None end) evs.

Definition writes (evs : list Event) : list (Path * str) :=
  omap (λ ev, match ev with EvWriteText p text => Some (p, text) | _ => None end)
       evs.

(** The renderer starts and the writes among the events, in order: the
    command line of a start, the path of a write. *)
Definition steps (evs : list Event) : list (list str + Path) :=
  omap (λ ev, match ev with
              | EvRun cmd => Some (inl cmd)
              | EvWriteText p _ => Some (inr p)
              | _ => None
              end) evs.

Section Allowed.
Context `{Env}.

(** What the loop does for the source [f] at most: one start of the
    renderer on it, then one write of its page. *)
Definition source_steps (f : Path) : list (list str + Path) :=
  [inl (plantuml_cmd f OUTPUT_IMG_DIR);
   inr (path_div OUTPUT_MD_DIR (path_stem f ++ py ".md"))].

(** What a run over the sources [files] may print or call. *)
Definition allowed (files : list Path) (ev : Event) : Prop :=
  match ev with
  | EvPrint _ => True
  | EvGlob dir pattern => dir = PUML_DIR ∧ pattern = py "*.puml"
  | EvReadText p => p ∈ files
  | EvMkdir p => p = OUTPUT_IMG_DIR ∨ p = OUTPUT_MD_DIR
  | EvRun cmd => ∃ f, f ∈ files ∧ cmd = plantuml_cmd f OUTPUT_IMG_DIR
  | EvExists p =>
      ∃ f, f ∈ files ∧ p = path_div OUTPUT_IMG_DIR (path_stem f ++ py ".png")
  | EvWriteText p text =>
      (p = path_div OUTPUT_MD_DIR (py "README.md") ∧ text = index_content)
      ∨ ∃ f, f ∈ files ∧ p = path_div OUTPUT_MD_DIR (path_stem f ++ py ".md")
  end.

End Allowed.

(** The order in which [sorted] puts the sources. *)
Definition path_le (p q : Path) : Prop := path_leb p q = true.

(** ** A host with directories *)

Module Checkout.

(** The directories and the files there are. A file is written only into a
    directory that exists; the renderer stub exits with code 1. *)
Record FsWorld : Type := mkFs {
  fs_dirs : list Path;
  fs_files : list (Path * str);
}.

(** A path with the directories above it. *)
Definition with_parents (p : Path) : list Path :=
  map (λ k, take k p) (seq 1 (length p)).

Definition fs_glob (dir : Path) (pattern : str) (w : FsWorld) : list Path :=
  filter (λ p, Sim.parent p = dir
               ∧ Sim.endswith (drop 1 pattern) (path_name p))
         (map fst (fs_files w)).

Definition fs_read_text (p : Path) (w : FsWorld) : Result str :=
  match Sim.lookup_file p (fs_files w) with
  | Some text => Ok text
  | None =>
      Raise (Exc "FileNotFoundError"
               (py "[Errno 2] No such file or directory: '" ++ path_str p
                ++ py "'"))
  end.

Definition fs_mkdir (p : Path) (w : FsWorld) : Result () * FsWorld :=
  (Ok (), mkFs (with_parents p ++ fs_dirs w) (fs_files w)).

Definition fs_run (cmd : list str) (w : FsWorld) :
    Result CompletedProcess * FsWorld :=
  (Ok (mkCompleted 1 [] (py "Error line 1 in file")), w).

Definition fs_write_text (p : Path) (text : str) (w : FsWorld) :
    Result () * FsWorld :=
  if bool_decide (Sim.parent p ∈ fs_dirs w) then
    (Ok (), mkFs (fs_dirs w) ((p, text) :: fs_files w))
  else
    (Raise (Exc "FileNotFoundError"
              (py "[Errno 2] No such file or directory: '" ++ path_str p
               ++ py "'")), w).

#[global] Instance fs_os : OS FsWorld := {|
  os_glob := fs_glob;
  os_read_text := fs_read_text;
  os_mkdir := fs_mkdir;
  os_run := fs_run;
  os_exists := λ p w, bool_decide (p ∈ map fst (fs_files w));
  os_write_text := fs_write_text;
|}.

(** A checkout with one source and no page directory yet. *)
Definition fresh : State FsWorld :=
  mkState
    (mkFs (with_parents PUML_DIR)
          [(Sim.puml "order-flow", py "@startuml
title Order Flow
Alice -> Bob
@enduml
")])
    [].

End Checkout.

(** * Properties *)

(** ** Facts on the matcher *)

Section MatcherFacts.
Context {R : Type}.
Implicit Types (p : N → bool) (s w : str) (k : str → option R).

Lemma rep1_None p s k :
  Re.rep1 p s k = None →
  ∀ w s', s = w ++ s' → w ≠ [] → Forall (λ c, p c) w → k s' = None.
Proof.
  induction s as [|c s IH]; intros Hr w s' Hs Hw Hp.
  - destruct w; [done | discriminate].
  - destruct w as [|c' w]; [done|]. simpl in Hs. injection Hs as <- ->.
    apply Forall_cons in Hp as [Hc Hp]. simpl in Hr.
    destruct (p c); [|done].
    destruct (Re.rep1 p (w ++ s') k) eqn:E; [discriminate|].
    destruct w as [|c2 w]; [exact Hr|].
    by apply (IH eq_refl (c2 :: w) s').
Qed.

Lemma rep1_Some p s k m :
  Re.rep1 p s k = Some m →
  ∃ w s', s = w ++ s' ∧ w ≠ [] ∧ Forall (λ c, p c) w ∧ k s' = Some m
    ∧ ∀ w' s'', s = w' ++ s'' → Forall (λ c, p c) w' →
        (length w < length w')%nat → k s'' = None.
Proof.
  revert m. induction s as [|c s IH]; intros m Hr; [discriminate|].
  simpl in Hr. destruct (p c) eqn:Hc; [|discriminate].
  destruct (Re.rep1 p s k) as [m'|] eqn:E.
  - injection Hr as ->. destruct (IH m eq_refl) as (w & s' & -> & Hw & Hp & Hk & Hmax).
    exists (c :: w), s'. repeat split; try done.
    + constructor; [by rewrite Hc | done].
    + intros w' s'' Hs Hp' Hlen. destruct w' as [|c' w']; [simpl in Hlen; lia|].
      simpl in Hs. injection Hs as <- Hs. apply Forall_cons in Hp' as [_ Hp'].
      apply (Hmax w' s''); [done | done | simpl in Hlen; lia].
  - exists [c], s. repeat split; try done.
    + constructor; [by rewrite Hc | constructor].
    + intros w' s'' Hs Hp' Hlen. destruct w' as [|c' w']; [simpl in Hlen; lia|].
      simpl in Hs. injection Hs as <- Hs. apply Forall_cons in Hp' as [_ Hp'].
      destruct w' as [|c2 w']; [simpl in Hlen; lia|].
      by apply (rep1_None p s k E (c2 :: w') s'').
Qed.

Lemma rmatch_lit_app kw r s g (k : str → option str → option R) :
  Re.rmatch (Re.lit kw r) (kw ++ s) g k = Re.rmatch r s g k.
Proof.
  induction kw as [|c kw IH]; [done|]. simpl. by rewrite N.eqb_refl.
Qed.

Lemma rmatch_lit_Some kw r s g (k : str → option str → option R) m :
  Re.rmatch (Re.lit kw r) s g k = Some m → ∃ s', s = kw ++ s'.
Proof.
  revert s. induction kw as [|c kw IH]; intros s H; [by exists s|].
  simpl in H. destruct s as [|x s]; [discriminate|].
  destruct (x =? c) eqn:E; [|discriminate]. apply N.eqb_eq in E as ->.
  destruct (IH s H) as [s' ->]. by exists s'.
Qed.
End MatcherFacts.

Lemma search_None r s :
  Re.search r s = None → ∀ pre s', s = pre ++ s' → Re.match_here r s' = None.
Proof.
  induction s as [|c s IH]; intros H pre s' Hs.
  - destruct pre; [|discriminate]. simpl in Hs. subst s'. simpl in H.
    by destruct (Re.match_here r []).
  - simpl in H. destruct (Re.match_here r (c :: s)) eqn:E; [discriminate|].
    destruct pre as [|c' pre]; simpl in Hs; [by subst s'|].
    injection Hs as <- Hs. by apply (IH H pre).
Qed.

Lemma search_Some r s m :
  Re.search r s = Some m →
  ∃ pre s', s = pre ++ s' ∧ Re.match_here r s' = Some m
    ∧ ∀ pre' s'', s = pre' ++ s'' → (length pre' < length pre)%nat →
        Re.match_here r s'' = None.
Proof.
  induction s as [|c s IH]; intros H.
  - simpl in H. destruct (Re.match_here r []) eqn:E; [|discriminate].
    injection H as ->. exists [], []. repeat split; [done|].
    intros ?? _ Hl. simpl in Hl. lia.
  - simpl in H. destruct (Re.match_here r (c :: s)) eqn:E.
    + injection H as ->. exists [], (c :: s). repeat split; [done|].
      intros ?? _ Hl. simpl in Hl. lia.
    + destruct (IH H) as (pre & s' & -> & Hm & Hmin).
      exists (c :: pre), s'. repeat split; [done|].
      intros pre' s'' Hs Hl. destruct pre' as [|c' pre']; simpl in Hs.
      * by subst s''.
      * injection Hs as <- Hs. apply (Hmin pre' s'' Hs). simpl in Hl. lia.
Qed.

(** ** The pattern [title\s+(.+)] against the declarative directive *)

Lemma match_here_title_None s :
  Re.match_here title_re s = None →
  ∀ ws g rest, s = title_kw ++ ws ++ g ++ rest →
    ws ≠ [] → Forall (λ c, isspace c) ws →
    g ≠ [] → Forall (λ c, dot c) g → False.
Proof.
  intros H ws g rest -> Hws Hsp Hg Hdot.
  unfold Re.match_here, title_re in H. rewrite rmatch_lit_app in H.
  simpl in H.
  pose proof (rep1_None _ _ _ H ws (g ++ rest) eq_refl Hws Hsp) as H1.
  simpl in H1.
  pose proof (rep1_None _ _ _ H1 g rest eq_refl Hg Hdot) as H2.
  discriminate.
Qed.

Lemma match_here_title_Some s m :
  Re.match_here title_re s = Some m →
  ∃ ws g rest,
    s = title_kw ++ ws ++ g ++ rest
    ∧ ws ≠ [] ∧ Forall (λ c, isspace c) ws
    ∧ g ≠ [] ∧ Forall (λ c, dot c) g
    ∧ m = Re.mkMatch (Some g)
    ∧ ∀ ws' g' rest', s = title_kw ++ ws' ++ g' ++ rest' →
        ws' ≠ [] → Forall (λ c, isspace c) ws' →
        g' ≠ [] → Forall (λ c, dot c) g' →
        (length ws' ≤ length ws)%nat
        ∧ (length ws' = length ws → (length g' ≤ length g)%nat).
Proof.
  intros H. unfold Re.match_here, title_re in H.
  destruct (rmatch_lit_Some _ _ _ _ _ _ H) as [s1 ->].
  rewrite rmatch_lit_app in H. simpl in H.
  destruct (rep1_Some _ _ _ _ H) as (ws & s2 & -> & Hws & Hsp & Hk & Hmax).
  simpl in Hk.
  destruct (rep1_Some _ _ _ _ Hk) as (g & rest & -> & Hg & Hdot & Hm & Hmax').
  exists ws, g, rest. do 5 (split; [done|]). split.
  - injection Hm as <-. rewrite length_app.
    replace (length g + length rest - length rest)%nat with (length g) by lia.
    by rewrite take_app_length.
  - intros ws' g' rest' Heq Hws' Hsp' Hg' Hdot'. apply app_inv_head in Heq.
    split.
    + destruct (decide (length ws' ≤ length ws)%nat) as [|Hgt]; [done|].
      exfalso. assert (length ws < length ws')%nat as Hlt by lia.
      pose proof (Hmax ws' (g' ++ rest') Heq Hsp' Hlt) as Hn.
      simpl in Hn.
      pose proof (rep1_None _ _ _ Hn g' rest' eq_refl Hg' Hdot').
      discriminate.
    + intros Hlen. apply app_inj_1 in Heq as [-> Heq]; [|done].
      destruct (decide (length g' ≤ length g)%nat) as [|Hgt]; [done|].
      exfalso. assert (length g < length g')%nat as Hlt by lia.
      pose proof (Hmax' g' rest' Heq Hdot' Hlt). discriminate.
Qed.

Lemma search_title_None content :
  Re.search title_re content = None → ¬ has_directive content.
Proof.
  intros H (pre & ws & g & rest & -> & Hws & Hsp & Hg & Hdot).
  pose proof (search_None _ _ H pre _ eq_refl) as Hn.
  by eapply match_here_title_None.
Qed.

Lemma search_title_Some content m :
  Re.search title_re content = Some m →
  ∃ pre ws g rest,
    first_match content pre ws g rest ∧ m = Re.mkMatch (Some g).
Proof.
  intros H.
  destruct (search_Some _ _ _ H) as (pre & s' & -> & Hm & Hmin).
  destruct (match_here_title_Some _ _ Hm)
    as (ws & g & rest & -> & Hws & Hsp & Hg & Hdot & -> & Hgreedy).
  exists pre, ws, g, rest. split; [|done]. repeat split; try done.
  - intros pre' ws' g' rest' (Heq & ? & ? & ? & ?).
    destruct (decide (length pre ≤ length pre')%nat) as [|Hgt]; [done|].
    exfalso. assert (length pre' < length pre)%nat as Hlt by lia.
    pose proof (Hmin pre' _ Heq Hlt) as Hn.
    by eapply match_here_title_None.
  - destruct H0 as (Heq & ? & ? & ? & ?). apply app_inv_head in Heq.
    by apply (Hgreedy ws' g' rest').
  - destruct H0 as (Heq & ? & ? & ? & ?). apply app_inv_head in Heq.
    by apply (Hgreedy ws' g' rest').
Qed.

Lemma first_match_unique content pre ws g rest pre' ws' g' rest' :
  first_match content pre ws g rest →
  first_match content pre' ws' g' rest' →
  pre = pre' ∧ ws = ws' ∧ g = g' ∧ rest = rest'.
Proof.
  intros (D & L & G) (D' & L' & G').
  pose proof (L _ _ _ _ D'). pose proof (L' _ _ _ _ D).
  destruct D as (E & ?), D' as (E' & ?).
  assert (pre = pre') as <-.
  { rewrite E in E'. apply app_inj_1 in E' as [? _]; [done | lia]. }
  assert (directive_at content pre ws g rest) as D by done.
  assert (directive_at content pre ws' g' rest') as D' by done.
  destruct (G _ _ _ D') as [? Hg'], (G' _ _ _ D) as [? Hg].
  rewrite E in E'. do 2 apply app_inv_head in E'.
  apply app_inj_1 in E' as [<- E']; [|lia].
  specialize (Hg eq_refl). specialize (Hg' eq_refl).
  apply app_inj_1 in E' as [<- <-]; [done | lia].
Qed.

Lemma extract_title_first_match content pre ws g rest :
  first_match content pre ws g rest →
  extract_title_from_puml content = Ok (strip g).
Proof.
  intros F. unfold extract_title_from_puml.
  destruct (Re.search title_re content) as [m|] eqn:E.
  - destruct (search_title_Some _ _ E) as (pre' & ws' & g' & rest' & F' & ->).
    destruct (first_match_unique _ _ _ _ _ _ _ _ _ F F') as (_ & _ & <- & _).
    done.
  - exfalso. apply (search_title_None _ E).
    exists pre, ws, g, rest. apply F.
Qed.



Lemma extract_title_total content :
  ∃ t, extract_title_from_puml content = Ok t.
Proof.
  unfold extract_title_from_puml.
  destruct (Re.search title_re content) as [m|] eqn:E; [|by eexists].
  destruct (search_title_Some _ _ E) as (pre & ws & g & rest & _ & ->).
  by eexists.
Qed.

Example extract_plain :
  extract_title_from_puml (py "@startuml
title Backend Architecture
skinparam x
@enduml") = Ok (py "Backend Architecture").
Proof. vm_compute. reflexivity. Qed.

Example extract_none :
  extract_title_from_puml (py "@startuml
@enduml") = Ok (py "Untitled Diagram").
Proof. vm_compute. reflexivity. Qed.

Example extract_blank :
  extract_title_from_puml (py "title  ") = Ok [].
Proof. vm_compute. reflexivity. Qed.

Example extract_next_line :
  extract_title_from_puml (py "title
Alice -> Bob") = Ok (py "Alice -> Bob").
Proof. vm_compute. reflexivity. Qed.


(** ** The title extractor (claims C6 and C10) *)




Example extract_sample :
  extract_title_from_puml sample_puml = Ok (py "Order Flow").
Proof. by vm_compute. Qed.

Lemma startswith_app p s : startswith p (p ++ s) = true.
Proof. induction p as [|c p IH]; [done|]. simpl. by rewrite N.eqb_refl. Qed.

Lemma app_eq_longer {A : Type} (a b c d : list A) :
  a ++ b = c ++ d → (length c < length a)%nat →
  ∃ x y, a = c ++ x :: y ∧ d = x :: y ++ b.
Proof.
  revert c. induction a as [|u a IH]; intros c E L; [simpl in L; lia|].
  destruct c as [|v c].
  - simpl in E. subst d. by exists u, a.
  - simpl in E. injection E as <- E. simpl in L.
    destruct (IH c E) as (x & y & -> & ->); [lia|]. by exists x, y.
Qed.

(** The directive at the first occurrence of the keyword, when its trailing
    text starts with a non-blank character and runs to the end of its line,
    is the first match. *)
Lemma first_occurrence_first_match pre ws c g rest :
  (∀ i, (i < length pre)%nat →
     startswith title_kw (drop i (pre ++ title_kw ++ ws ++ (c :: g) ++ rest))
     = false) →
  ws ≠ [] → Forall (λ x, isspace x) ws →
  isspace c = false → Forall (λ x, dot x) (c :: g) →
  (rest = [] ∨ ∃ rest', rest = newline :: rest') →
  first_match (pre ++ title_kw ++ ws ++ (c :: g) ++ rest) pre ws (c :: g) rest.
Proof.
  intros Hfirst Hws Hsp Hc Hdot Hrest. split; [done|]. split.
  - intros pre' ws' g' rest' (E & _).
    destruct (decide (length pre ≤ length pre')%nat) as [|Hgt]; [done|].
    exfalso. assert (length pre' < length pre)%nat as Hlt by lia.
    specialize (Hfirst _ Hlt). rewrite E in Hfirst.
    rewrite drop_app_length in Hfirst. by rewrite startswith_app in Hfirst.
  - intros ws' g' rest' (E & Hws' & Hsp' & Hg' & Hdot').
    do 2 apply app_inv_head in E.
    assert (length ws' ≤ length ws)%nat as Hle.
    { destruct (decide (length ws' ≤ length ws)%nat) as [|Hgt]; [done|].
      exfalso. symmetry in E.
      destruct (app_eq_longer _ _ _ _ E) as (x & y & -> & E'); [lia|].
      simpl in E'. injection E' as -> _.
      apply Forall_app in Hsp' as [_ Hx]. apply Forall_cons in Hx as [Hx _].
      by rewrite Hc in Hx. }
    split; [done|]. intros Hlen. symmetry in E.
    apply app_inj_1 in E as [-> E]; [|done].
    destruct (decide (length g' ≤ length (c :: g))%nat) as [|Hgt]; [done|].
    exfalso.
    destruct (app_eq_longer _ _ _ _ E) as (x & y & -> & E'); [lia|].
    apply Forall_app in Hdot' as [_ Hx]. apply Forall_cons in Hx as [Hx _].
    destruct Hrest as [->|[rest0 ->]]; [discriminate|].
    injection E' as <- _. done.
Qed.

(** C10. The pattern is searched anywhere in the text, not at a line start
    and not as a whole word: when the first occurrence of "title" is
    followed by white space and by text, whatever precedes it (the "sub" of
    "subtitle"), the extractor returns that occurrence's trailing text up to
    the end of its line, stripped. *)
Theorem C10_first_occurrence_wins (pre ws g rest : str) (c : N) :
  (∀ i, (i < length pre)%nat →
     startswith title_kw (drop i (pre ++ title_kw ++ ws ++ (c :: g) ++ rest))
     = false) →
  ws ≠ [] → Forall (λ x, isspace x) ws →
  isspace c = false → Forall (λ x, dot x) (c :: g) →
  (rest = [] ∨ ∃ rest', rest = newline :: rest') →
  extract_title_from_puml (pre ++ title_kw ++ ws ++ (c :: g) ++ rest)
  = Ok (strip (c :: g)).
Proof.
  intros. eapply extract_title_first_match.
  by apply first_occurrence_first_match.
Qed.

Lemma no_title_before_subtitle (tail : str) (i : nat) :
  (i < length subtitle_pre)%nat →
  startswith title_kw (drop i (subtitle_pre ++ title_kw ++ tail)) = false.
Proof.
  intros Hi. vm_compute in Hi.
  do 13 (destruct i as [|i]; [by vm_compute|]). lia.
Qed.

Lemma C10_first_occurrence_wins_witness :
  extract_title_from_puml
    (subtitle_pre ++ title_kw ++ py " " ++ py "Foo" ++ subtitle_rest)
  = Ok (py "Foo").
Proof.
  refine (C10_first_occurrence_wins subtitle_pre (py " ") (py "oo")
            subtitle_rest 0x46 _ _ _ _ _ _).
  - apply no_title_before_subtitle.
  - by vm_compute.
  - vm_compute; repeat constructor.
  - by vm_compute.
  - vm_compute; repeat constructor.
  - right. eexists. vm_compute. reflexivity.
Defined.

(** ** Metadata resolution (claims C5 and C7) *)

(** C5. A name of the static table resolves to its table entry; a name
    absent from the table resolves to the extracted title and to the
    description "Documentation for <title>.". *)
Theorem C5_resolve_metadata (diagram_name puml_content : str) :
  (∀ entry, DIAGRAM_DESCRIPTIONS !! diagram_name = Some entry →
     resolve_metadata diagram_name puml_content = Ok entry)
  ∧ (DIAGRAM_DESCRIPTIONS !! diagram_name = None →
     ∃ t, extract_title_from_puml puml_content = Ok t
       ∧ resolve_metadata diagram_name puml_content
         = Ok {| title := t;
                 description := py "Documentation for " ++ t ++ py "." |}).
Proof.
  destruct (extract_title_total puml_content) as [t Ht].
  unfold resolve_metadata. rewrite Ht. split.
  - by intros entry ->.
  - intros ->. by exists t.
Qed.

Lemma C5_resolve_metadata_witness :
  (resolve_metadata (py "senzu-ai-class-diagram") sample_puml
   = Ok {| title := py "Domain Model";
           description :=
             default [] (description <$>
               DIAGRAM_DESCRIPTIONS !! py "senzu-ai-class-diagram") |})
  ∧ (∃ t, extract_title_from_puml sample_puml = Ok t
       ∧ resolve_metadata (py "order-flow") sample_puml
         = Ok {| title := t;
                 description := py "Documentation for " ++ t ++ py "." |}).
Proof.
  split.
  - apply (proj1 (C5_resolve_metadata (py "senzu-ai-class-diagram") sample_puml)).
    by vm_compute.
  - apply (proj2 (C5_resolve_metadata (py "order-flow") sample_puml)).
    by vm_compute.
Defined.

(** Every entry of the static table has a title and a description. *)
Lemma table_entries_nonempty (diagram_name : str) (entry : Metadata) :
  DIAGRAM_DESCRIPTIONS !! diagram_name = Some entry →
  title entry ≠ [] ∧ description entry ≠ [].
Proof.
  intros L. apply elem_of_list_to_map_2 in L.
  assert (Forall (λ kv, title kv.2 ≠ [] ∧ description kv.2 ≠ [])
            DIAGRAM_DESCRIPTIONS_items) as F.
  { vm_compute. repeat constructor; discriminate. }
  rewrite Forall_forall in F. apply (F _ L).
Qed.

Lemma table_keys_distinct : NoDup (DIAGRAM_DESCRIPTIONS_items.*1).
Proof. apply (bool_decide_unpack _). by vm_compute. Qed.

(** The synthesized description is never empty. *)
Lemma fallback_description_nonempty (t : str) :
  description (fallback_metadata t) ≠ [].
Proof. by vm_compute. Qed.

(** C7, on the code. A source that is absent from the table and whose title
    directive is followed by blanks only resolves to the empty title: the
    pattern gives back one blank to its group, and [strip] empties it. *)
Theorem C7_blank_title_is_empty :
  DIAGRAM_DESCRIPTIONS !! py "meeting-notes" = None
  ∧ resolve_metadata (py "meeting-notes") (py "@startuml
Alice -> Bob
@enduml
' title  
")
    = Ok {| title := []; description := py "Documentation for ." |}.
Proof. split; by vm_compute. Qed.

(** ** Related diagrams (claim C3) *)

Lemma startswith_true p s : startswith p s = true ↔ ∃ b, s = p ++ b.
Proof.
  revert s. induction p as [|c p IH]; intros s; simpl.
  - split; [by exists s | done].
  - destruct s as [|x s]; [split; [done | by intros [? ?]]|].
    rewrite andb_true_iff, N.eqb_eq, IH. split.
    + intros [-> [b ->]]. by exists b.
    + intros [b E]. injection E as -> ->. eauto.
Qed.

Lemma str_in_true p s : str_in p s = true ↔ contains p s.
Proof.
  unfold contains. induction s as [|x s IH]; simpl.
  - rewrite orb_false_r, startswith_true. split.
    + intros [b E]. by exists [], b.
    + intros (a & b & E). destruct a; [by exists b|discriminate].
  - rewrite orb_true_iff, startswith_true, IH. split.
    + intros [[b E]|(a & b & ->)]; [by exists [], b | by exists (x :: a), b].
    + intros (a & b & E). destruct a as [|y a]; [left; by exists b|].
      injection E as -> ->. right. by exists a, b.
Qed.

Lemma str_in_false p s : str_in p s = false ↔ ¬ contains p s.
Proof. rewrite <- str_in_true. by destruct (str_in p s). Qed.

Section Pages.
Context `{Env}.

(** C3, amended. The "Related Diagrams" section of a page is decided by
    the lowered name, the keywords being tried in the order of the code:
    "architecture" gives the three architecture links; otherwise "sequence"
    or "flow" gives the two flow links; otherwise "class" gives the two
    class links; otherwise the section is empty. *)
Theorem C3_related_by_keyword (diagram_name : str) :
  let name := lower diagram_name in
  (contains (py "architecture") name →
     related_diagrams diagram_name = py "- [Domain Model](./senzu-ai-class-diagram.md)
- [Deployment Architecture](./senzu-ai-deployment-diagram.md)
- [Database Schema](./senzu-ai-database-schema.md)
")
  ∧ (¬ contains (py "architecture") name →
     contains (py "sequence") name ∨ contains (py "flow") name →
     related_diagrams diagram_name = py "- [Backend Architecture](./senzu-ai-backend-architecture.md)
- [Service Interfaces](./senzu-ai-service-interfaces.md)
")
  ∧ (¬ contains (py "architecture") name →
     ¬ contains (py "sequence") name → ¬ contains (py "flow") name →
     contains (py "class") name →
     related_diagrams diagram_name = py "- [Database Schema](./senzu-ai-database-schema.md)
- [Service Interfaces](./senzu-ai-service-interfaces.md)
")
  ∧ (¬ contains (py "architecture") name →
     ¬ contains (py "sequence") name → ¬ contains (py "flow") name →
     ¬ contains (py "class") name →
     related_diagrams diagram_name = [])
  ∧ (∀ png_path title description output_dir,
       markdown_content diagram_name png_path title description output_dir
       = page_header title description (os_path_relpath png_path output_dir)
         ++ related_diagrams diagram_name ++ page_footer diagram_name).
Proof.
  intros name. unfold related_diagrams. fold name.
  rewrite <- !str_in_false, <- !str_in_true.
  repeat split.
  - intros ->. by vm_compute.
  - intros -> [->| ->]; [|rewrite orb_true_r]; by vm_compute.
  - intros -> -> -> ->. by vm_compute.
  - by intros -> -> -> ->.
Qed.

End Pages.

Lemma C3_related_by_keyword_witness :
  related_diagrams (py "Senzu-AI-Class-Diagram")
  = py "- [Database Schema](./senzu-ai-database-schema.md)
- [Service Interfaces](./senzu-ai-service-interfaces.md)
".
Proof.
  apply (proj1 (proj2 (proj2
           (C3_related_by_keyword (py "Senzu-AI-Class-Diagram")))));
    try (apply str_in_false; by vm_compute).
  apply str_in_true. by vm_compute.
Defined.

(** The claim as stated fails on a name that has "class" and an earlier
    keyword: the earlier keyword decides. *)
Lemma C3_class_after_architecture :
  ¬ (∀ (E : Env) (diagram_name : str),
       contains (py "class") (lower diagram_name) →
       related_diagrams diagram_name = class_links).
Proof.
  intros claim.
  specialize (claim Sim.sim_env (py "class-architecture")).
  assert (contains (py "class") (lower (py "class-architecture"))) as C.
  { apply str_in_true. by vm_compute. }
  specialize (claim C). vm_compute in claim. discriminate.
Qed.

Example related_is_case_insensitive :
  related_diagrams (py "Backend-ARCHITECTURE") = architecture_links.
Proof. by vm_compute. Qed.

Lemma path_name_div (p : Path) (name : str) :
  name ≠ [slash] → path_name (path_div p name) = name.
Proof.
  intros N. destruct p as [|a [|b p]].
  - cbn. by rewrite bool_decide_eq_false_2.
  - done.
  - exact (last_last (a :: b :: p) name []).
Qed.

(** ** The index (claim C4) *)

Section Calls.
Context `{Env} {World : Type} `{!OS World}.
Implicit Types (st : State World).


End Calls.

(** ** The render step (claim C2) *)

Section Render.
Context `{Env} {World : Type} `{!OS World}.
Implicit Types (st : State World).

(** The render step, call by call. *)
Lemma generate_png_from_puml_unfold (puml_file output_dir : Path) st :
  generate_png_from_puml puml_file output_dir st =
  let png := path_div output_dir (path_stem puml_file ++ py ".png") in
  let cmd := plantuml_cmd puml_file output_dir in
  match os_mkdir output_dir (world st) with
  | (Raise e, w1) => (Raise e, mkState w1 (trace st ++ [EvMkdir output_dir]))
  | (Ok _, w1) =>
      match os_run cmd w1 with
      | (Raise e, w2) =>
          (Raise e, mkState w2 (trace st ++ [EvMkdir output_dir; EvRun cmd]))
      | (Ok result, w2) =>
          if bool_decide (returncode result ≠ 0%Z) then
            (Raise (Exc "RuntimeError"
                      (py "PlantUML conversion failed: " ++ proc_stderr result)),
             mkState w2 (trace st ++ [EvMkdir output_dir; EvRun cmd]))
          else if os_exists png w2 then
            (Ok png,
             mkState w2 (trace st ++ [EvMkdir output_dir; EvRun cmd; EvExists png]))
          else
            (Raise (Exc "FileNotFoundError"
                      (py "Expected PNG file not created: " ++ path_str png)),
             mkState w2 (trace st ++ [EvMkdir output_dir; EvRun cmd; EvExists png]))
      end
  end.
Proof.
  unfold generate_png_from_puml, mkdir, subprocess_run, exists_, raise, record,
    mbind, M_bind, mret, M_ret.
  destruct (os_mkdir _ _) as [[[]|e] w1]; simpl; [|done].
  destruct (os_run _ _) as [[result|e] w2]; simpl; [|by rewrite <- app_assoc].
  case_bool_decide; simpl; [by rewrite <- app_assoc|].
  destruct (os_exists _ _); simpl; by rewrite <- !app_assoc.
Qed.


End Render.


Example render_succeeds :
  fst (generate_png_from_puml (Sim.puml "beta-sequence") OUTPUT_IMG_DIR
         Sim.all_good)
  = Ok (path_div OUTPUT_IMG_DIR (py "beta-sequence.png")).
Proof. by vm_compute. Qed.

(** ** Page composition (claim C8) *)

Section Compose.
Context `{Env} {World : Type} `{!OS World}.
Implicit Types (st : State World).

(** The page composer, call by call. *)
Lemma generate_markdown_doc_unfold (diagram_name : str) (png_path : Path)
    (title description : str) (output_dir : Path) st :
  generate_markdown_doc diagram_name png_path title description output_dir st =
  let md_file := path_div output_dir (diagram_name ++ py ".md") in
  let text := markdown_content diagram_name png_path title description output_dir in
  match os_mkdir output_dir (world st) with
  | (Raise e, w1) => (Raise e, mkState w1 (trace st ++ [EvMkdir output_dir]))
  | (Ok _, w1) =>
      match os_write_text md_file text w1 with
      | (Raise e, w2) =>
          (Raise e,
           mkState w2 (trace st ++ [EvMkdir output_dir; EvWriteText md_file text]))
      | (Ok _, w2) =>
          (Ok md_file,
           mkState w2 (trace st ++ [EvMkdir output_dir; EvWriteText md_file text]))
      end
  end.
Proof.
  unfold generate_markdown_doc, mkdir, write_text, mbind, M_bind, mret, M_ret.
  destruct (os_mkdir _ _) as [[[]|e] w1]; simpl; [|done].
  destruct (os_write_text _ _ _) as [[[]|e] w2]; simpl; by rewrite <- app_assoc.
Qed.

Lemma generate_markdown_doc_events (diagram_name : str) (png_path : Path)
    (title description : str) (output_dir : Path) st :
  let md_file := path_div output_dir (diagram_name ++ py ".md") in
  let text := markdown_content diagram_name png_path title description output_dir in
  let evs := events_of (generate_markdown_doc diagram_name png_path title
                          description output_dir) st in
  evs = [EvMkdir output_dir]
  ∨ evs = [EvMkdir output_dir; EvWriteText md_file text].
Proof.
  intros md_file text evs. subst evs. unfold events_of.
  rewrite generate_markdown_doc_unfold. fold md_file text. cbv zeta.
  destruct (os_mkdir _ _) as [[[]|e] w1]; simpl.
  - destruct (os_write_text _ _ _) as [[[]|e] w2]; simpl;
      rewrite drop_app_length; by right.
  - rewrite drop_app_length. by left.
Qed.

(** C8. Page composition is deterministic: whatever the state it runs in,
    the composer writes at most one file, and two compositions with the
    same name, image path, title, description and destination write the
    same text to the same path. The text is a function of these inputs. *)
Theorem C8_compose_deterministic (diagram_name : str) (png_path : Path)
    (title description : str) (output_dir : Path) st1 st2
    (p1 p2 : Path) (text1 text2 : str) :
  EvWriteText p1 text1
    ∈ events_of (generate_markdown_doc diagram_name png_path title description
                   output_dir) st1 →
  EvWriteText p2 text2
    ∈ events_of (generate_markdown_doc diagram_name png_path title description
                   output_dir) st2 →
  p1 = p2 ∧ text1 = text2
  ∧ text1 = markdown_content diagram_name png_path title description output_dir.
Proof.
  intros W1 W2.
  destruct (generate_markdown_doc_events diagram_name png_path title
              description output_dir st1) as [E1|E1];
    rewrite E1 in W1; clear E1;
    destruct (generate_markdown_doc_events diagram_name png_path title
                description output_dir st2) as [E2|E2];
    rewrite E2 in W2; clear E2.
  all: repeat match goal with
       | W : _ ∈ _ :: _ |- _ => apply elem_of_cons in W as [W|W]
       | W : _ ∈ [] |- _ => by apply elem_of_nil in W
       | W : EvWriteText _ _ = EvMkdir _ |- _ => discriminate W
       | W : EvWriteText _ _ = EvWriteText _ _ |- _ => injection W as -> ->
       end.
  done.
Qed.

End Compose.

(** Composing a page, then composing it again in the state this left. *)
Lemma C8_compose_deterministic_witness :
  path_div OUTPUT_MD_DIR (py "beta-sequence.md")
  = [py "/"; py "repo"; py "docs"; py "plantuml"; py "md"; py "beta-sequence.md"]
  ∧ sample_page = sample_page_text
  ∧ sample_page
    = markdown_content (py "beta-sequence")
        (path_div OUTPUT_IMG_DIR (py "beta-sequence.png"))
        (py "Beta Sequence") (py "Documentation for Beta Sequence.")
        OUTPUT_MD_DIR.
Proof.
  refine (C8_compose_deterministic (py "beta-sequence")
            (path_div OUTPUT_IMG_DIR (py "beta-sequence.png"))
            (py "Beta Sequence") (py "Documentation for Beta Sequence.")
            OUTPUT_MD_DIR Sim.all_good (snd (sample_compose Sim.all_good))
            _ _ _ _ _ _).
  - apply (list_elem_of_lookup_2 _ 1%nat). by vm_compute.
  - apply (list_elem_of_lookup_2 _ 1%nat). by vm_compute.
Defined.

(** ** The orchestrator (claims C1 and C9) *)

Section Orchestrator.
Context `{Env} {World : Type} `{!OS World}.
Implicit Types (st s : State World) (docs : list (str * str)).

Lemma extends_bind {A B : Type} (m : M World A) (f : A → M World B) :
  extends m → (∀ a, extends (f a)) → extends (m ≫= f).
Proof.
  intros Hm Hf st. unfold mbind, M_bind. specialize (Hm st).
  destruct (m st) as [[a|e] st1]; simpl in *; [|done].
  etrans; [exact Hm | apply Hf].
Qed.

Lemma extends_mret {A : Type} (a : A) : extends (mret a : M World A).
Proof. by intros st. Qed.

Lemma extends_print (line : str) : extends (print (World:=World) line).
Proof. intros st. by apply prefix_app_r. Qed.

Lemma extends_try_except {A : Type} (body : M World A)
    (handler : Exception → M World A) :
  extends body → (∀ e, extends (handler e)) → extends (try_except body handler).
Proof.
  intros Hb Hh st. unfold try_except. specialize (Hb st).
  destruct (body st) as [[a|e] st1]; simpl in *; [done|].
  etrans; [exact Hb | apply Hh].
Qed.

Lemma extends_generate_png (puml_file output_dir : Path) :
  extends (generate_png_from_puml puml_file output_dir).
Proof.
  intros st. rewrite generate_png_from_puml_unfold. cbv zeta.
  destruct (os_mkdir _ _) as [[[]|e] w1]; simpl; [|by apply prefix_app_r].
  destruct (os_run _ _) as [[result|e] w2]; simpl; [|by apply prefix_app_r].
  case_bool_decide; simpl; [by apply prefix_app_r|].
  destruct (os_exists _ _); simpl; by apply prefix_app_r.
Qed.

Lemma extends_generate_markdown (diagram_name : str) (png_path : Path)
    (title description : str) (output_dir : Path) :
  extends (generate_markdown_doc diagram_name png_path title description
             output_dir).
Proof.
  intros st. rewrite generate_markdown_doc_unfold. cbv zeta.
  destruct (os_mkdir _ _) as [[[]|e] w1]; simpl; [|by apply prefix_app_r].
  destruct (os_write_text _ _ _) as [[[]|e] w2]; simpl; by apply prefix_app_r.
Qed.

Lemma extends_try_body (f : Path) (name : str) (md : Metadata) docs :
  extends (try_body f name md docs).
Proof.
  unfold try_body.
  repeat first
    [ apply extends_print
    | apply extends_generate_png
    | apply extends_generate_markdown
    | apply extends_mret
    | apply extends_bind; [|intros ?]
    | progress cbv zeta ].
Qed.

Lemma extends_except_clause docs (e : Exception) :
  extends (except_clause (World:=World) docs e).
Proof.
  unfold except_clause.
  repeat first
    [ apply extends_print | apply extends_mret | apply extends_bind; [|intros ?] ].
Qed.

(** When the body of the [try] returns, the page was appended. *)
Lemma try_body_Ok (f : Path) (name : str) (md : Metadata) docs s docs' s' :
  try_body f name md docs s = (Ok docs', s') →
  docs' = docs ++ [(name, title md)].
Proof.
  unfold try_body, print, mbind, M_bind, mret, M_ret.
  destruct (generate_png_from_puml _ _ _) as [[png|e] s1]; [|done].
  destruct (generate_markdown_doc _ _ _ _ _ _) as [[md_path|e] s2]; [|done].
  by intros [= <- _].
Qed.

(** The [try] statement, by the outcome of its body. *)
Lemma try_statement_outcome (f : Path) (name : str) (md : Metadata) docs s :
  try_except (try_body f name md docs) (except_clause docs) s =
  match try_body f name md docs s with
  | (Ok docs', s1) => (Ok docs', s1)
  | (Raise e, s1) => (Ok docs, after_except e s1)
  end.
Proof.
  unfold try_except. by destruct (try_body f name md docs s) as [[docs'|e] s1].
Qed.

(** The statements before the [try]: one line printed, one file read. *)
Lemma prepare_unfold (f : Path) s :
  prepare f s =
  (match os_read_text f (world s) with
   | Ok content => resolve_metadata (path_stem f) content
   | Raise e => Raise e
   end,
   mkState (world s)
     (trace s ++ [EvPrint (py "Processing: " ++ path_stem f); EvReadText f])).
Proof.
  unfold prepare, print, read_text, lift, record, mbind, M_bind. simpl.
  rewrite <- app_assoc. by destruct (os_read_text f (world s)).
Qed.

(** One turn of the loop. *)
Lemma for_puml_files_cons (f : Path) (rest : list Path) docs s :
  for_puml_files (f :: rest) docs s =
  match prepare f s with
  | (Raise e, s1) => (Raise e, s1)
  | (Ok md, s1) =>
      match try_body f (path_stem f) md docs s1 with
      | (Ok docs', s2) => for_puml_files rest docs' s2
      | (Raise e, s2) => for_puml_files rest docs (after_except e s2)
      end
  end.
Proof.
  simpl. unfold mbind at 1, M_bind at 1.
  destruct (prepare f s) as [[md|e] s1]; [|done].
  unfold mbind, M_bind. rewrite try_statement_outcome.
  by destruct (try_body _ _ _ _ _) as [[docs'|e] s2].
Qed.

Lemma for_puml_files_app (before rest : list Path) docs s :
  for_puml_files (before ++ rest) docs s =
  match for_puml_files before docs s with
  | (Ok docs', s') => for_puml_files rest docs' s'
  | (Raise e, s') => (Raise e, s')
  end.
Proof.
  revert docs s. induction before as [|f before IH]; intros docs s; [done|].
  rewrite <- app_comm_cons, !for_puml_files_cons.
  destruct (prepare f s) as [[md|e] s1]; [|done].
  destruct (try_body _ _ _ _ _) as [[docs'|e] s2]; apply IH.
Qed.

(** The loop returns the pages of the attempts it made, and it made one
    for every source. *)
Lemma for_puml_files_pages (files : list Path) docs s docs' s' :
  for_puml_files files docs s = (Ok docs', s') →
  (attempts files docs s).*1.*1 = files
  ∧ docs' = docs ++ pages (attempts files docs s).
Proof.
  revert docs s. induction files as [|f files IH]; intros docs s.
  - intros [= <- <-]. by rewrite app_nil_r.
  - rewrite for_puml_files_cons. simpl.
    destruct (prepare f s) as [[md|e] s1]; [|done].
    destruct (try_body _ _ _ _ _) as [[docs1|e] s2] eqn:B; intros L.
    + apply try_body_Ok in B as ->.
      destruct (IH _ _ L) as [E1 E2]. rewrite !fmap_cons. simpl.
      split; [by rewrite E1|]. by rewrite E2, <- app_assoc.
    + destruct (IH _ _ L) as [E1 E2]. rewrite !fmap_cons. simpl.
      split; [by rewrite E1 | done].
Qed.

(** [main] up to the loop. *)
Lemma main_unfold st :
  discovered st ≠ [] →
  main st =
  match for_puml_files (discovered st) [] (after_header st) with
  | (Ok docs, s) => finish docs s
  | (Raise e, s) => (Raise e, s)
  end.
Proof.
  intros NE. unfold main, print, glob, record, mbind, M_bind. simpl.
  fold (discovered st). rewrite bool_decide_eq_false_2 by done. simpl.
  unfold after_header. rewrite <- !app_assoc. simpl.
  by destruct (for_puml_files _ _ _) as [[docs|e] s].
Qed.

(** The statements after the loop: the index is written first. *)
Lemma finish_unfold docs s :
  let index_file := path_div OUTPUT_MD_DIR (py "README.md") in
  let start := [EvPrint (py "Generating index...");
                EvWriteText index_file index_content] in
  ∃ w,
    os_write_text index_file index_content (world s) = (fst (finish docs s), w)
    ∧ (trace s ++ start) `prefix_of` trace (snd (finish docs s))
    ∧ (fst (finish docs s) = Ok () →
       EvPrint (py "  - " ++ str_of_nat (length docs) ++ py " diagrams processed")
         ∈ trace (snd (finish docs s))).
Proof.
  intros index_file start. subst start.
  unfold finish, generate_index, write_text, print, record, mbind, M_bind,
    mret, M_ret. simpl. fold index_file.
  destruct (os_write_text _ _ _) as [[[]|e] w]; simpl; exists w.
  - split; [done|]. rewrite <- !app_assoc. simpl. split.
    + eexists. rewrite <- app_assoc. simpl. reflexivity.
    + intros _. rewrite !elem_of_app, !elem_of_cons. tauto.
  - split; [done|]. split; [|done]. rewrite <- app_assoc. by simpl.
Qed.

(** When the write of the index raises, so does [main]: nothing is printed
    after "Generating index...", and there is no summary. *)
Lemma main_raises_with_the_index_write st docs s (e : Exception) (w : World) :
  discovered st ≠ [] →
  for_puml_files (discovered st) [] (after_header st) = (Ok docs, s) →
  os_write_text (path_div OUTPUT_MD_DIR (py "README.md")) index_content (world s)
  = (Raise e, w) →
  main st
  = (Raise e,
     mkState w
       (trace s
        ++ [EvPrint (py "Generating index...");
            EvWriteText (path_div OUTPUT_MD_DIR (py "README.md"))
              index_content])).
Proof.
  intros NE L W. rewrite main_unfold, L by done.
  unfold finish, generate_index, write_text, print, record, mbind, M_bind.
  cbn [world trace]. rewrite W. cbn -[py]. by rewrite <- app_assoc.
Qed.

(** C9. The source is read before the [try] statement: an exception of the
    read leaves the loop and [main]. The run ends at that read: no later
    source is processed and the index is not written. *)
Theorem C9_read_error_aborts st (before : list Path) (f : Path)
    (rest : list Path) docs s (e : Exception) :
  discovered st = before ++ f :: rest →
  for_puml_files before [] (after_header st) = (Ok docs, s) →
  os_read_text f (world s) = Raise e →
  prepare f s
  = (Raise e,
     mkState (world s)
       (trace s ++ [EvPrint (py "Processing: " ++ path_stem f); EvReadText f]))
  ∧ main st
    = (Raise e,
       mkState (world s)
         (trace s ++ [EvPrint (py "Processing: " ++ path_stem f); EvReadText f])).
Proof.
  intros D L R.
  assert (prepare f s
          = (Raise e,
             mkState (world s)
               (trace s ++ [EvPrint (py "Processing: " ++ path_stem f);
                            EvReadText f]))) as P.
  { by rewrite prepare_unfold, R. }
  split; [done|].
  rewrite main_unfold by (rewrite D; by destruct before).
  by rewrite D, for_puml_files_app, L, for_puml_files_cons, P.
Qed.

End Orchestrator.

(** C1, on the code. A checkout with one source whose render fails and with
    no page directory yet: the error of the render is caught and printed
    and the loop ends, but [generate_index] writes [README.md] without
    making its directory first (the page composer makes it, and no page was
    composed), so the write raises and the exception leaves [main]: no index
    is written and no summary is printed. *)
Theorem C1_index_write_raises_when_no_page_was_made :
  fst (main Checkout.fresh)
  = Raise (Exc "FileNotFoundError"
             (py "[Errno 2] No such file or directory: '/repo/docs/plantuml/md/README.md'"))
  ∧ Sim.printed (trace (snd (main Checkout.fresh)))
    = [py "Senzu AI Documentation Generator";
       py "==================================================";
       py "Found 1 PlantUML files";
       [];
       py "Processing: order-flow";
       py "  → Generating PNG...";
       py "  ✗ Error: PlantUML conversion failed: Error line 1 in file";
       [];
       py "Generating index..."]
  ∧ Checkout.fs_files (world (snd (main Checkout.fresh)))
    = Checkout.fs_files (world Checkout.fresh)
  ∧ OUTPUT_MD_DIR ∉ Checkout.fs_dirs (world (snd (main Checkout.fresh))).
Proof.
  split; [by vm_compute|]. split; [by vm_compute|]. split; [by vm_compute|].
  apply (bool_decide_unpack _). by vm_compute.
Qed.

(** The second source cannot be read: the run stops there. *)
Lemma C9_read_error_aborts_witness :
  fst (main Sim.beta_unreadable)
  = Raise (Exc "PermissionError" (py "[Errno 13] Permission denied"))
  ∧ Sim.written (trace (snd (main Sim.beta_unreadable))) = []
  ∧ List.last (Sim.printed (trace (snd (main Sim.beta_unreadable)))) []
    = py "Processing: beta-sequence".
Proof.
  assert (main Sim.beta_unreadable
          = (Raise (Exc "PermissionError" (py "[Errno 13] Permission denied")),
             mkState
               (world (snd (for_puml_files [Sim.puml "alpha-architecture"] []
                              (after_header Sim.beta_unreadable))))
               (trace (snd (for_puml_files [Sim.puml "alpha-architecture"] []
                              (after_header Sim.beta_unreadable)))
                ++ [EvPrint (py "Processing: "
                             ++ path_stem (Sim.puml "beta-sequence"));
                    EvReadText (Sim.puml "beta-sequence")]))) as Hmain.
  { refine (proj2 (C9_read_error_aborts Sim.beta_unreadable
                     [Sim.puml "alpha-architecture"] (Sim.puml "beta-sequence")
                     [Sim.puml "gamma-unrelated"] [] _ _ _ _ _));
      by vm_compute. }
  rewrite Hmain. by vm_compute.
Defined.

(** ** The end-to-end scenarios *)

Example run_all_good :
  let '(r, st) := main Sim.all_good in
  r = Ok ()
  ∧ Sim.written (trace st)
    = [path_div OUTPUT_MD_DIR (py "alpha-architecture.md");
       path_div OUTPUT_MD_DIR (py "beta-sequence.md");
       path_div OUTPUT_MD_DIR (py "gamma-unrelated.md");
       path_div OUTPUT_MD_DIR (py "README.md")]
  ∧ py "  - 3 diagrams processed" ∈ Sim.printed (trace st).
Proof. vm_compute. repeat split. repeat constructor. Qed.

Example run_beta_broken :
  let '(r, st) := main Sim.beta_broken in
  r = Ok ()
  ∧ Sim.written (trace st)
    = [path_div OUTPUT_MD_DIR (py "alpha-architecture.md");
       path_div OUTPUT_MD_DIR (py "gamma-unrelated.md");
       path_div OUTPUT_MD_DIR (py "README.md")]
  ∧ filter (λ line, startswith (py "  ✗ Error: ") line) (Sim.printed (trace st))
    = [py "  ✗ Error: PlantUML conversion failed: Syntax error in diagram"]
  ∧ py "  - 2 diagrams processed" ∈ Sim.printed (trace st).
Proof. vm_compute. repeat split. repeat constructor. Qed.

Example run_beta_silent :
  let '(r, st) := main Sim.beta_silent in
  r = Ok ()
  ∧ filter (λ line, startswith (py "  ✗ Error: ") line) (Sim.printed (trace st))
    = [py "  ✗ Error: Expected PNG file not created: /repo/docs/plantuml/images/beta-sequence.png"]
  ∧ py "  - 2 diagrams processed" ∈ Sim.printed (trace st).
Proof. vm_compute. repeat split. repeat constructor. Qed.

Example run_no_sources :
  main (mkState (Sim.mkSim [] [] [] []) [])
  = (Ok (),
     mkState (Sim.mkSim [] [] [] [])
       [EvPrint (py "Senzu AI Documentation Generator");
        EvPrint (py "==================================================");
        EvGlob PUML_DIR (py "*.puml");
        EvPrint (py "No .puml files found in /repo/docs/plantuml/puml")]).
Proof. by vm_compute. Qed.

(** * Further properties *)

(** ** [strip] and the extracted title *)

Lemma lstrip_spec (s : str) :
  ∃ w, s = w ++ lstrip s ∧ Forall (λ c, isspace c) w
    ∧ ∀ c t, lstrip s = c :: t → isspace c = false.
Proof.
  induction s as [|x s (w & E & Hw & Hh)]; simpl.
  - exists []. by repeat split.
  - destruct (isspace x) eqn:X.
    + exists (x :: w). split; [simpl; by rewrite <- E|]. split; [|done].
      constructor; [by rewrite X | done].
    + exists []. split; [done|]. split; [done|]. by intros c t [= <- _].
Qed.

Lemma rstrip_spec (s : str) :
  ∃ w, s = rstrip s ++ w ∧ Forall (λ c, isspace c) w
    ∧ ∀ t c, rstrip s = t ++ [c] → isspace c = false.
Proof.
  unfold rstrip. destruct (lstrip_spec (reverse s)) as (w & E & Hw & Hh).
  exists (reverse w). split; [|split].
  - rewrite <- reverse_app, <- E. by rewrite reverse_involutive.
  - by apply Forall_reverse.
  - intros t c Ht. apply (Hh c (reverse t)).
    rewrite <- (reverse_involutive (lstrip (reverse s))), Ht.
    by rewrite reverse_app.
Qed.

Lemma strip_spec (s : str) :
  ∃ a b, s = a ++ strip s ++ b
    ∧ Forall (λ c, isspace c) a ∧ Forall (λ c, isspace c) b
    ∧ trimmed (strip s).
Proof.
  unfold strip.
  destruct (lstrip_spec s) as (a & Ea & Ha & Hhead).
  destruct (rstrip_spec (lstrip s)) as (b & Eb & Hb & Hlast).
  exists a, b. split; [by rewrite <- Eb|]. split; [done|]. split; [done|].
  split; [|done]. intros c t Ht. apply (Hhead c (t ++ b)).
  by rewrite Eb, Ht.
Qed.

Lemma strip_nil_iff (s : str) : strip s = [] ↔ Forall (λ c, isspace c) s.
Proof.
  destruct (strip_spec s) as (a & b & E & Ha & Hb & Hhead & _). split.
  - intros Z. rewrite Z in E. rewrite E. by apply Forall_app.
  - intros Hs. destruct (strip s) as [|c t] eqn:Z; [done|].
    rewrite E in Hs. apply Forall_app in Hs as [_ Hs].
    apply Forall_app in Hs as [Hs _]. apply Forall_cons in Hs as [Hc _].
    by rewrite (Hhead c t eq_refl) in Hc.
Qed.

(** X1. The extracted title is one line without white space at its ends:
    it holds no line feed, and neither its first nor its last character is
    white space. *)
Theorem X1_title_is_one_trimmed_line (content t : str) :
  extract_title_from_puml content = Ok t →
  (newline ∉ t) ∧ trimmed t.
Proof.
  unfold extract_title_from_puml.
  destruct (Re.search title_re content) as [m|] eqn:S.
  - destruct (search_title_Some _ _ S) as (pre & ws & g & rest & F & ->).
    simpl. intros [= <-].
    destruct (strip_spec g) as (a & b & E & _ & _ & T). split; [|done].
    intros Hin. destruct F as ((_ & _ & _ & _ & Hdot) & _).
    rewrite E in Hdot. apply Forall_app in Hdot as [_ Hdot].
    apply Forall_app in Hdot as [Hdot _].
    rewrite Forall_forall in Hdot. by specialize (Hdot _ Hin).
  - intros [= <-]. split.
    + apply (bool_decide_unpack _). by vm_compute.
    + destruct (strip_spec untitled) as (_ & _ & _ & _ & _ & T).
      by replace (strip untitled) with untitled in T by (by vm_compute).
Qed.

Lemma X1_title_is_one_trimmed_line_witness :
  (newline ∉ py "Order Flow") ∧ trimmed (py "Order Flow").
Proof.
  apply (X1_title_is_one_trimmed_line sample_puml). by vm_compute.
Defined.

(** X2. The extracted title is empty exactly when the text has a title
    directive and the trailing text of the first match is white space
    only. *)
Theorem X2_empty_title_iff_blank_directive (content : str) :
  extract_title_from_puml content = Ok []
  ↔ ∃ pre ws g rest,
      first_match content pre ws g rest ∧ Forall (λ c, isspace c) g.
Proof.
  split.
  - unfold extract_title_from_puml.
    destruct (Re.search title_re content) as [m|] eqn:S; [|done].
    destruct (search_title_Some _ _ S) as (pre & ws & g & rest & F & ->).
    simpl. intros [= Z]. exists pre, ws, g, rest. split; [done|].
    by apply strip_nil_iff.
  - intros (pre & ws & g & rest & F & B).
    rewrite (extract_title_first_match _ _ _ _ _ F).
    f_equal. by apply strip_nil_iff.
Qed.

(** ** Metadata *)

(** X3. Whatever the name and the content, the resolved description is not
    empty; the resolved title is empty only for a name absent from the
    table whose extracted title is empty. *)
Theorem X3_resolved_metadata_nonempty (diagram_name puml_content : str)
    (metadata : Metadata) :
  resolve_metadata diagram_name puml_content = Ok metadata →
  description metadata ≠ []
  ∧ (title metadata = [] →
     DIAGRAM_DESCRIPTIONS !! diagram_name = None
     ∧ extract_title_from_puml puml_content = Ok []).
Proof.
  unfold resolve_metadata.
  destruct (extract_title_from_puml puml_content) as [t|e]; [|done].
  destruct (DIAGRAM_DESCRIPTIONS !! diagram_name) as [entry|] eqn:L; simpl.
  - intros [= <-]. destruct (table_entries_nonempty _ _ L) as [Ht Hd].
    split; [done|]. by intros Z.
  - intros [= <-]. split; [apply fallback_description_nonempty|].
    simpl. by intros ->.
Qed.

Lemma X3_resolved_metadata_nonempty_witness :
  description (fallback_metadata (py "Order Flow")) ≠ []
  ∧ (title (fallback_metadata (py "Order Flow")) = [] →
     DIAGRAM_DESCRIPTIONS !! py "order-flow" = None
     ∧ extract_title_from_puml sample_puml = Ok []).
Proof.
  apply (X3_resolved_metadata_nonempty (py "order-flow") sample_puml).
  by vm_compute.
Defined.

(** X4. Every diagram of the metadata table is linked from the index: the
    index text holds the link target [(./<name>.md)] of each table name. *)
Theorem X4_index_links_every_table_diagram (diagram_name : str)
    (entry : Metadata) :
  DIAGRAM_DESCRIPTIONS !! diagram_name = Some entry →
  contains (py "(./" ++ diagram_name ++ py ".md)") index_content.
Proof.
  intros L. apply elem_of_list_to_map_2 in L.
  assert (Forall (λ kv, str_in (py "(./" ++ kv.1 ++ py ".md)") index_content
                        = true) DIAGRAM_DESCRIPTIONS_items) as F.
  { apply (bool_decide_unpack _). by vm_compute. }
  rewrite Forall_forall in F. apply str_in_true. apply (F _ L).
Qed.

Lemma X4_index_links_every_table_diagram_witness :
  contains (py "(./senzu-ai-feature-pipeline.md)") index_content.
Proof.
  assert (is_Some (DIAGRAM_DESCRIPTIONS !! py "senzu-ai-feature-pipeline")) as [entry L].
  { apply (bool_decide_unpack _). by vm_compute. }
  exact (X4_index_links_every_table_diagram _ entry L).
Defined.

(** ** Naming of the outputs *)

Lemma find_index_first (c : N) (l r : str) :
  c ∉ l → find_index c (l ++ c :: r) = Some (length l).
Proof.
  induction l as [|x l IH]; simpl; intros Hn.
  - by rewrite N.eqb_refl.
  - apply not_elem_of_cons in Hn as [Hx Hl].
    destruct (x =? c) eqn:E; [apply N.eqb_eq in E; congruence|].
    by rewrite (IH Hl).
Qed.

Lemma rfind_last_stop (n ext : str) :
  full_stop ∉ ext →
  rfind full_stop (n ++ full_stop :: ext) = Some (length n).
Proof.
  intros Hn. unfold rfind.
  rewrite reverse_app, reverse_cons, <- app_assoc. simpl.
  rewrite find_index_first by (by rewrite elem_of_reverse).
  simpl. f_equal. rewrite length_reverse, length_app. simpl. lia.
Qed.

Lemma path_stem_drops_extension (dir : Path) (n ext : str) :
  n ≠ [] → ext ≠ [] → full_stop ∉ ext →
  path_stem (path_div dir (n ++ full_stop :: ext)) = n.
Proof.
  intros Hn He Hstop. unfold path_stem.
  rewrite path_name_div
    by (intros E; apply (f_equal length) in E; rewrite length_app in E;
        destruct n; [done | simpl in E; lia]).
  rewrite rfind_last_stop by done.
  replace ((0 <? length n)%nat) with true
    by (symmetry; apply Nat.ltb_lt; destruct n; [done | simpl; lia]).
  replace ((length n <? length (n ++ full_stop :: ext) - 1)%nat) with true.
  - simpl. by rewrite take_app_length.
  - symmetry. apply Nat.ltb_lt. rewrite length_app. simpl.
    destruct ext; [done | simpl; lia].
Qed.

(** X5. The diagram name of a source [<n>.puml] is [n] when [n] is not
    empty, whatever full stops [n] holds; the source named [.puml] has the
    whole name [.puml] as its diagram name. *)
Theorem X5_diagram_name_of_source (dir : Path) (n : str) :
  (n ≠ [] → path_stem (path_div dir (n ++ py ".puml")) = n)
  ∧ path_stem (path_div dir (py ".puml")) = py ".puml".
Proof.
  split.
  - intros Hn.
    replace (py ".puml") with (full_stop :: py "puml") by (by vm_compute).
    apply path_stem_drops_extension; [done | by vm_compute|].
    apply (bool_decide_unpack _). by vm_compute.
  - unfold path_stem. rewrite path_name_div by (by vm_compute).
    by vm_compute.
Qed.

Lemma X5_diagram_name_of_source_witness :
  path_stem (path_div PUML_DIR (py "v1.2-flow" ++ py ".puml")) = py "v1.2-flow".
Proof.
  apply (proj1 (X5_diagram_name_of_source PUML_DIR (py "v1.2-flow"))).
  by vm_compute.
Defined.

(** ** Letter case in the diagram name *)

Lemma ascii_lower_upper (c : N) : ascii_lower (ascii_upper c) = ascii_lower c.
Proof.
  unfold ascii_lower, ascii_upper.
  repeat match goal with
         | |- context [?a <=? ?b] => destruct (N.leb_spec a b); simpl in *
         end; lia.
Qed.

Lemma ascii_lower_idem (c : N) : ascii_lower (ascii_lower c) = ascii_lower c.
Proof.
  unfold ascii_lower.
  repeat match goal with
         | |- context [?a <=? ?b] => destruct (N.leb_spec a b); simpl in *
         end; lia.
Qed.

Lemma is_ascii_upper (c : N) : is_ascii c = true → is_ascii (ascii_upper c) = true.
Proof.
  unfold is_ascii, ascii_upper. rewrite !N.ltb_lt.
  repeat match goal with
         | |- context [?a <=? ?b] => destruct (N.leb_spec a b); simpl in *
         end; lia.
Qed.

Lemma is_ascii_lower (c : N) : is_ascii c = true → is_ascii (ascii_lower c) = true.
Proof.
  unfold is_ascii, ascii_lower. rewrite !N.ltb_lt.
  repeat match goal with
         | |- context [?a <=? ?b] => destruct (N.leb_spec a b); simpl in *
         end; lia.
Qed.

Section Case.
Context `{Env}.

Lemma lower_map_ascii (change : N → N) (name : str) :
  (∀ c, is_ascii c = true → is_ascii (change c) = true) →
  (∀ c, ascii_lower (change c) = ascii_lower c) →
  forallb is_ascii name = true →
  lower (map change name) = lower name.
Proof.
  intros Hascii Hlow A. unfold lower.
  assert (forallb is_ascii (map change name) = true) as ->.
  { rewrite forallb_forall in *. intros c Hc.
    apply in_map_iff in Hc as (c0 & <- & Hc0). auto. }
  rewrite A, map_map. apply map_ext. auto.
Qed.

(** X6. For a name of ASCII characters, the "Related Diagrams" section does
    not depend on the case of its letters: upper-casing or lower-casing the
    name leaves the section unchanged. *)
Theorem X6_related_ignores_ascii_case (diagram_name : str) :
  forallb is_ascii diagram_name = true →
  related_diagrams (map ascii_upper diagram_name) = related_diagrams diagram_name
  ∧ related_diagrams (map ascii_lower diagram_name) = related_diagrams diagram_name.
Proof.
  intros A. unfold related_diagrams.
  rewrite (lower_map_ascii ascii_upper) by
    (auto using is_ascii_upper, ascii_lower_upper).
  by rewrite (lower_map_ascii ascii_lower) by
    (auto using is_ascii_lower, ascii_lower_idem).
Qed.

End Case.

Lemma X6_related_ignores_ascii_case_witness :
  related_diagrams (map ascii_upper (py "Order-Flow"))
  = related_diagrams (py "Order-Flow")
  ∧ related_diagrams (map ascii_lower (py "Order-Flow"))
    = related_diagrams (py "Order-Flow").
Proof.
  apply (X6_related_ignores_ascii_case (py "Order-Flow")). by vm_compute.
Defined.

(** ** The order of the sources *)

Lemma lex_leb_total {A : Type} (leb : A → A → bool) :
  (∀ x y, leb x y = true ∨ leb y x = true) →
  ∀ a b, lex_leb leb a b = true ∨ lex_leb leb b a = true.
Proof.
  intros T. induction a as [|x a IH]; intros [|y b]; simpl; auto.
  destruct (leb x y) eqn:E1, (leb y x) eqn:E2; auto.
  destruct (T x y); congruence.
Qed.

Lemma lex_leb_trans {A : Type} (leb : A → A → bool) :
  (∀ x y z, leb x y = true → leb y z = true → leb x z = true) →
  ∀ a b c, lex_leb leb a b = true → lex_leb leb b c = true →
           lex_leb leb a c = true.
Proof.
  intros Tr. induction a as [|x a IH]; intros [|y b] [|z c]; simpl; try done.
  intros H1 H2.
  destruct (leb x y) eqn:Exy; [|done]. destruct (leb y z) eqn:Eyz; [|done].
  rewrite (Tr x y z) by done. destruct (leb z x) eqn:Ezx; [|done].
  rewrite (Tr y z x Eyz Ezx) in H1. rewrite (Tr z x y Ezx Exy) in H2.
  by apply (IH b c).
Qed.

Lemma path_le_total (p q : Path) : path_le p q ∨ path_le q p.
Proof.
  apply lex_leb_total. apply lex_leb_total.
  intros x y. rewrite !N.leb_le. lia.
Qed.

Lemma path_le_trans (p q r : Path) : path_le p q → path_le q r → path_le p r.
Proof.
  apply lex_leb_trans. apply lex_leb_trans.
  intros x y z. rewrite !N.leb_le. lia.
Qed.

Lemma insert_sorted_perm (p : Path) (l : list Path) :
  insert_sorted p l ≡ₚ p :: l.
Proof.
  induction l as [|q l IH]; simpl; [done|].
  destruct (path_leb p q); [done|]. rewrite IH. apply Permutation_swap.
Qed.

Lemma sorted_perm (l : list Path) : sorted l ≡ₚ l.
Proof.
  induction l as [|p l IH]; simpl; [done|].
  rewrite insert_sorted_perm. by constructor.
Qed.

Lemma insert_sorted_sorted (p : Path) (l : list Path) :
  StronglySorted path_le l → StronglySorted path_le (insert_sorted p l).
Proof.
  induction 1 as [|q l Hl IH Hq]; simpl.
  - by repeat constructor.
  - destruct (path_leb p q) eqn:E.
    + constructor; [by constructor|]. constructor; [done|].
      eapply Forall_impl; [exact Hq|]. intros r Hr.
      by apply (path_le_trans p q r).
    + constructor; [done|]. rewrite insert_sorted_perm.
      constructor; [|done]. destruct (path_le_total p q) as [Hpq|]; [|done].
      unfold path_le in Hpq. congruence.
Qed.

Lemma sorted_sorted (l : list Path) : StronglySorted path_le (sorted l).
Proof.
  induction l as [|p l IH]; simpl; [constructor|].
  by apply insert_sorted_sorted.
Qed.

(** ** The events of a run *)

Lemma resolve_metadata_total (diagram_name puml_content : str) :
  ∃ metadata, resolve_metadata diagram_name puml_content = Ok metadata.
Proof.
  unfold resolve_metadata.
  destruct (extract_title_total puml_content) as [t ->]. by eexists.
Qed.

Section RunFacts.
Context `{Env} {World : Type} `{!OS World}.
Implicit Types (st s : State World) (docs : list (str * str)).

Ltac solve_allowed :=
  cbn -[py index_content];
  first [ exact I | by split | by left | by right | by (left; split)
        | by (eexists; split; [eassumption | reflexivity])
        | by (right; eexists; split; [eassumption | reflexivity]) ].

Ltac allowed_list :=
  repeat (apply Forall_cons; split; [solve_allowed|]); by apply Forall_nil.

Ltac solve_events :=
  rewrite <- ?app_assoc; simpl; eexists; split; [reflexivity|];
  split; [allowed_list|];
  simpl; repeat split; lia || done.

(** The body of the [try] for a source: what it may do, and how often. *)
Lemma try_body_events (files : list Path) (f : Path) (md : Metadata) docs s :
  f ∈ files →
  ∃ evs,
    trace (snd (try_body f (path_stem f) md docs s)) = trace s ++ evs
    ∧ Forall (allowed files) evs
    ∧ (length (renders evs) ≤ 1)%nat
    ∧ (length (writes evs) ≤ length (renders evs))%nat
    ∧ reads evs = [].
Proof.
  intros Hf. unfold try_body, print, record, mbind, M_bind, mret, M_ret. simpl.
  rewrite generate_png_from_puml_unfold. cbv zeta. simpl.
  destruct (os_mkdir _ _) as [[[]|e] w1]; simpl; [|solve_events].
  destruct (os_run _ _) as [[result|e] w2]; simpl; [|solve_events].
  case_bool_decide; simpl; [solve_events|].
  destruct (os_exists _ _); simpl; [|solve_events].
  rewrite generate_markdown_doc_unfold. cbv zeta. simpl.
  destruct (os_mkdir _ _) as [[[]|e] w3]; simpl; [|solve_events].
  destruct (os_write_text _ _ _) as [[[]|e] w4]; simpl; solve_events.
Qed.

Lemma renders_app (a b : list Event) : renders (a ++ b) = renders a ++ renders b.
Proof. apply omap_app. Qed.

Lemma writes_app (a b : list Event) : writes (a ++ b) = writes a ++ writes b.
Proof. apply omap_app. Qed.

Lemma reads_app (a b : list Event) : reads (a ++ b) = reads a ++ reads b.
Proof. apply omap_app. Qed.

Lemma events_of_eq {A : Type} (m : M World A) st (evs : list Event) :
  trace (snd (m st)) = trace st ++ evs → events_of m st = evs.
Proof. intros E. unfold events_of. by rewrite E, drop_app_length. Qed.

(** The [try] statement for a source. *)
Lemma try_statement_events (files : list Path) (f : Path) (md : Metadata)
    docs s :
  f ∈ files →
  ∃ docs' s' evs,
    try_except (try_body f (path_stem f) md docs) (except_clause docs) s
    = (Ok docs', s')
    ∧ trace s' = trace s ++ evs
    ∧ Forall (allowed files) evs
    ∧ (length (renders evs) ≤ 1)%nat
    ∧ (length (writes evs) ≤ length (renders evs))%nat
    ∧ reads evs = [].
Proof.
  intros Hf. rewrite try_statement_outcome.
  destruct (try_body_events files f md docs s Hf) as (evs & E & A & R & W & Rd).
  destruct (try_body _ _ _ _ _) as [[d|e] s1]; simpl in E.
  - by exists d, s1, evs.
  - exists docs, (after_except e s1),
      (evs ++ [EvPrint (py "  ✗ Error: " ++ exc_str e); EvPrint []]).
    split; [done|]. unfold after_except, record. simpl.
    rewrite E, <- !app_assoc. split; [done|].
    rewrite renders_app, writes_app, reads_app, Rd. simpl.
    rewrite !app_nil_r. split; [|done].
    apply Forall_app. split; [done|]. by repeat constructor.
Qed.

Lemma for_puml_files_step (f : Path) (rest : list Path) docs s :
  for_puml_files (f :: rest) docs s =
  match prepare f s with
  | (Raise e, s1) => (Raise e, s1)
  | (Ok md, s1) =>
      match try_except (try_body f (path_stem f) md docs)
                       (except_clause docs) s1 with
      | (Ok docs', s2) => for_puml_files rest docs' s2
      | (Raise e, s2) => (Raise e, s2)
      end
  end.
Proof. done. Qed.

(** The loop over the sources. *)
Lemma for_puml_files_events (all files : list Path) docs s :
  (∀ f, f ∈ files → f ∈ all) →
  ∃ evs,
    trace (snd (for_puml_files files docs s)) = trace s ++ evs
    ∧ Forall (allowed all) evs
    ∧ (length (renders evs) ≤ length files)%nat
    ∧ (length (writes evs) ≤ length (renders evs))%nat
    ∧ reads evs `prefix_of` files
    ∧ (∀ d, fst (for_puml_files files docs s) = Ok d → reads evs = files)
    ∧ (∀ e, fst (for_puml_files files docs s) = Raise e →
         ∃ f tr,
           f ∈ files
           ∧ trace (snd (for_puml_files files docs s)) = tr ++ [EvReadText f]
           ∧ os_read_text f (world (snd (for_puml_files files docs s)))
             = Raise e).
Proof.
  revert docs s. induction files as [|f files IH]; intros docs s Hall.
  - exists []. simpl. rewrite app_nil_r. by repeat split.
  - assert (f ∈ all) as Hf by (apply Hall; by left).
    assert (∀ g, g ∈ files → g ∈ all) as Hall' by (intros g Hg; apply Hall; by right).
    rewrite for_puml_files_step, prepare_unfold.
    destruct (os_read_text f (world s)) as [content|e] eqn:R.
    + destruct (resolve_metadata_total (path_stem f) content) as [md ->].
      destruct (try_statement_events all f md docs
                  (mkState (world s)
                     (trace s ++ [EvPrint (py "Processing: " ++ path_stem f);
                                  EvReadText f])) Hf)
        as (docs' & s2 & evs1 & -> & E1 & A1 & R1 & W1 & Rd1).
      cbn [trace] in E1.
      destruct (IH docs' s2 Hall') as (evs2 & E2 & A2 & R2 & W2 & P2 & O2 & F2).
      exists ([EvPrint (py "Processing: " ++ path_stem f); EvReadText f]
              ++ evs1 ++ evs2).
      split; [by rewrite E2, E1, <- !app_assoc|].
      split; [repeat (apply Forall_app; split); try done;
              by repeat constructor|].
      rewrite !renders_app, !writes_app, !reads_app, Rd1, !length_app. simpl.
      split; [lia|]. split; [lia|]. split; [by apply prefix_cons|].
      split; [intros d Hd; f_equal; by apply (O2 d)|].
      intros e He. destruct (F2 e He) as (g & tr & Hg & Htr & Hr).
      exists g, tr. split; [by right | done].
    + exists [EvPrint (py "Processing: " ++ path_stem f); EvReadText f].
      cbn -[py]. split; [done|].
      split; [by repeat constructor|]. split; [lia|]. split; [lia|].
      split; [apply prefix_cons, prefix_nil|]. split; [done|].
      intros e0 [= <-].
      exists f, (trace s ++ [EvPrint (py "Processing: " ++ path_stem f)]).
      split; [by left|]. by rewrite <- app_assoc.
Qed.

(** The statements after the loop. *)
Lemma finish_events (all : list Path) docs s :
  let index_file := path_div OUTPUT_MD_DIR (py "README.md") in
  ∃ evs,
    trace (snd (finish docs s)) = trace s ++ evs
    ∧ Forall (allowed all) evs
    ∧ renders evs = []
    ∧ writes evs = [(index_file, index_content)]
    ∧ reads evs = []
    ∧ (∀ e, fst (finish docs s) = Raise e →
         ∃ tr w,
           trace (snd (finish docs s))
           = tr ++ [EvWriteText index_file index_content]
           ∧ os_write_text index_file index_content w
             = (Raise e, world (snd (finish docs s)))).
Proof.
  intros index_file.
  unfold finish, generate_index, write_text, print, record, mbind, M_bind,
    mret, M_ret. simpl. fold index_file.
  destruct (os_write_text _ _ _) as [[[]|e] w] eqn:Wr; simpl.
  - rewrite <- !app_assoc. simpl. eexists. split; [reflexivity|].
    split; [|by repeat split].
    allowed_list.
  - rewrite <- !app_assoc. simpl. eexists. split; [reflexivity|].
    split; [allowed_list|].
    do 3 (split; [done|]). intros e0 [= <-].
    exists (trace s ++ [EvPrint (py "Generating index...")]), (world s).
    by rewrite <- app_assoc.
Qed.

Lemma main_without_sources st :
  discovered st = [] →
  main st
  = (Ok (),
     mkState (world st)
       (trace st
        ++ [EvPrint (py "Senzu AI Documentation Generator");
            EvPrint (str_mul (py "=") 50);
            EvGlob PUML_DIR (py "*.puml");
            EvPrint (py "No .puml files found in " ++ path_str PUML_DIR)])).
Proof.
  intros D. unfold main, print, glob, record, mbind, M_bind. simpl.
  fold (discovered st). rewrite bool_decide_eq_true_2 by done. simpl.
  by rewrite <- !app_assoc.
Qed.

(** The whole run. *)
Lemma main_events st :
  let index_file := path_div OUTPUT_MD_DIR (py "README.md") in
  ∃ evs,
    trace (snd (main st)) = trace st ++ evs
    ∧ Forall (allowed (discovered st)) evs
    ∧ (length (renders evs) ≤ length (discovered st))%nat
    ∧ (length (writes evs) ≤ length (renders evs) + 1)%nat
    ∧ reads evs `prefix_of` discovered st
    ∧ (fst (main st) = Ok () → reads evs = discovered st)
    ∧ (discovered st ≠ [] → fst (main st) = Ok () →
         ∃ before, writes evs = before ++ [(index_file, index_content)])
    ∧ (∀ e, fst (main st) = Raise e →
         (∃ f tr,
            f ∈ discovered st
            ∧ trace (snd (main st)) = tr ++ [EvReadText f]
            ∧ os_read_text f (world (snd (main st))) = Raise e)
         ∨ (∃ tr w,
              trace (snd (main st))
              = tr ++ [EvWriteText index_file index_content]
              ∧ os_write_text index_file index_content w
                = (Raise e, world (snd (main st))))).
Proof.
  intros index_file. destruct (decide (discovered st = [])) as [D|D].
  - rewrite (main_without_sources st D), D. cbn -[py str_mul]. eexists.
    split; [reflexivity|].
    split; [allowed_list|].
    cbn -[py str_mul]. split; [lia|]. split; [lia|]. split; [done|].
    split; [done|]. split; [done|]. by intros e [=].
  - rewrite (main_unfold st D).
    destruct (for_puml_files_events (discovered st) (discovered st) []
                (after_header st) (λ f Hf, Hf))
      as (evs1 & E1 & A1 & R1 & W1 & P1 & O1 & F1).
    destruct (for_puml_files _ _ _) as [[d|e] s'] eqn:L;
      cbn [fst snd after_header trace] in *.
    + pose proof (finish_events (discovered st) d s') as Fin.
      cbv zeta in Fin. fold index_file in Fin.
      destruct Fin as (evs2 & E2 & A2 & R2 & W2 & Rd2 & F2).
      eexists. split; [by rewrite E2, E1, <- !app_assoc|].
      split; [repeat (apply Forall_app; split); try done;
              allowed_list|].
      rewrite !renders_app, !writes_app, !reads_app, R2, Rd2, W2, !length_app.
      simpl. rewrite ?app_nil_r. split; [lia|]. split; [lia|].
      split; [done|]. split; [intros _; by apply (O1 d)|].
      split; [intros _ _; by eexists|].
      intros e He. right. by apply F2.
    + eexists. split; [by rewrite E1, <- !app_assoc|].
      split; [apply Forall_app; split; [|done];
              allowed_list|].
      rewrite !renders_app, !writes_app, !reads_app. simpl.
      split; [lia|]. split; [lia|]. split; [done|]. split; [done|].
      split; [done|].
      intros e0 [= <-]. left. by apply F1.
Qed.

(** *** Renderer starts and writes, source by source *)

Lemma steps_app (a b : list Event) : steps (a ++ b) = steps a ++ steps b.
Proof. apply omap_app. Qed.

Ltac solve_steps :=
  rewrite <- ?app_assoc; cbn -[py]; eexists; split; [reflexivity|];
  split; [|done];
  cbn -[py plantuml_cmd path_div path_stem];
  first [ by apply prefix_nil | done | by eexists ].

Lemma try_body_steps (f : Path) (md : Metadata) docs s :
  ∃ evs,
    trace (snd (try_body f (path_stem f) md docs s)) = trace s ++ evs
    ∧ steps evs `prefix_of` source_steps f
    ∧ reads evs = [].
Proof.
  unfold source_steps, try_body, print, record, mbind, M_bind, mret, M_ret.
  cbn -[py].
  rewrite generate_png_from_puml_unfold. cbv zeta. cbn -[py].
  destruct (os_mkdir _ _) as [[[]|e] w1]; cbn -[py]; [|solve_steps].
  destruct (os_run _ _) as [[result|e] w2]; cbn -[py]; [|solve_steps].
  case_bool_decide; cbn -[py]; [solve_steps|].
  destruct (os_exists _ _); cbn -[py]; [|solve_steps].
  rewrite generate_markdown_doc_unfold. cbv zeta. cbn -[py].
  destruct (os_mkdir _ _) as [[[]|e] w3]; cbn -[py]; [|solve_steps].
  destruct (os_write_text _ _ _) as [[[]|e] w4]; cbn -[py]; solve_steps.
Qed.

Lemma try_statement_steps (f : Path) (md : Metadata) docs s :
  ∃ docs' s' evs,
    try_except (try_body f (path_stem f) md docs) (except_clause docs) s
    = (Ok docs', s')
    ∧ trace s' = trace s ++ evs
    ∧ steps evs `prefix_of` source_steps f
    ∧ reads evs = [].
Proof.
  rewrite try_statement_outcome.
  destruct (try_body_steps f md docs s) as (evs & E & S & Rd).
  destruct (try_body _ _ _ _ _) as [[d|e] s1]; cbn [snd] in E.
  - by exists d, s1, evs.
  - exists docs, (after_except e s1),
      (evs ++ [EvPrint (py "  ✗ Error: " ++ exc_str e); EvPrint []]).
    split; [done|]. unfold after_except, record. cbn [trace].
    rewrite E, <- !app_assoc. split; [done|].
    rewrite steps_app, reads_app, Rd. cbn -[py]. by rewrite !app_nil_r.
Qed.

Lemma for_puml_files_steps (files : list Path) docs s :
  ∃ evs blocks,
    trace (snd (for_puml_files files docs s)) = trace s ++ evs
    ∧ steps evs = concat blocks
    ∧ Forall2 (λ f block, block `prefix_of` source_steps f) (reads evs) blocks
    ∧ reads evs `prefix_of` files.
Proof.
  revert docs s. induction files as [|f files IH]; intros docs s.
  - exists [], []. cbn. rewrite app_nil_r. by repeat split; try constructor.
  - rewrite for_puml_files_step, prepare_unfold.
    destruct (os_read_text f (world s)) as [content|e] eqn:R.
    + destruct (resolve_metadata_total (path_stem f) content) as [md ->].
      destruct (try_statement_steps f md docs
                  (mkState (world s)
                     (trace s ++ [EvPrint (py "Processing: " ++ path_stem f);
                                  EvReadText f])))
        as (docs' & s2 & evs1 & -> & E1 & S1 & Rd1).
      cbn [trace] in E1.
      destruct (IH docs' s2) as (evs2 & blocks & E2 & S2 & F2 & P2).
      exists ([EvPrint (py "Processing: " ++ path_stem f); EvReadText f]
              ++ evs1 ++ evs2), (steps evs1 :: blocks).
      split; [by rewrite E2, E1, <- !app_assoc|].
      rewrite !steps_app, !reads_app, Rd1, S2. cbn -[py].
      split; [done|]. split; [by constructor|]. by apply prefix_cons.
    + exists [EvPrint (py "Processing: " ++ path_stem f); EvReadText f], [[]].
      cbn -[py]. split; [done|]. split; [done|].
      split; [constructor; [apply prefix_nil | constructor]|].
      apply prefix_cons, prefix_nil.
Qed.

Lemma finish_steps docs s :
  ∃ evs,
    trace (snd (finish docs s)) = trace s ++ evs
    ∧ steps evs = [inr (path_div OUTPUT_MD_DIR (py "README.md"))]
    ∧ reads evs = [].
Proof.
  unfold finish, generate_index, write_text, print, record, mbind, M_bind,
    mret, M_ret. cbn -[py str_mul].
  destruct (os_write_text _ _ _) as [[[]|e] w]; cbn -[py str_mul];
    rewrite <- !app_assoc; cbn -[py str_mul];
    eexists; (split; [reflexivity|]); by cbn -[py str_mul].
Qed.

Lemma main_steps st :
  ∃ evs blocks tail,
    trace (snd (main st)) = trace st ++ evs
    ∧ steps evs = concat blocks ++ tail
    ∧ Forall2 (λ f block, block `prefix_of` source_steps f) (reads evs) blocks
    ∧ tail `prefix_of` [inr (path_div OUTPUT_MD_DIR (py "README.md"))]
    ∧ reads evs `prefix_of` discovered st.
Proof.
  destruct (decide (discovered st = [])) as [D|D].
  - rewrite (main_without_sources st D). cbn -[py str_mul].
    eexists _, [], []. split; [reflexivity|]. cbn -[py str_mul].
    split; [done|]. split; [constructor|]. split; apply prefix_nil.
  - rewrite (main_unfold st D).
    destruct (for_puml_files_steps (discovered st) [] (after_header st))
      as (evs1 & blocks & E1 & S1 & F1 & P1).
    destruct (for_puml_files _ _ _) as [[d|e] s'];
      cbn [fst snd after_header trace] in *.
    + destruct (finish_steps d s') as (evs2 & E2 & S2 & Rd2).
      eexists _, blocks, [inr (path_div OUTPUT_MD_DIR (py "README.md"))].
      split; [by rewrite E2, E1, <- !app_assoc|].
      rewrite !steps_app, !reads_app, S1, S2, Rd2. cbn -[py str_mul].
      rewrite !app_nil_r. by repeat split.
    + eexists _, blocks, []. split; [by rewrite E1, <- !app_assoc|].
      rewrite !steps_app, !reads_app, S1. cbn -[py str_mul].
      rewrite !app_nil_r. split; [done|]. split; [done|].
      split; [apply prefix_nil | done].
Qed.

End RunFacts.

(** ** The whole run *)

Section Run.
Context `{Env} {World : Type} `{!OS World}.
Implicit Types (st s : State World) (docs : list (str * str)).

(** X7. When no source is found, [main] returns at once: besides its
    header and the message it makes one call, the glob; nothing is read,
    rendered or written, not even the index, and the world is untouched. *)
Theorem X7_no_sources_returns_early st :
  discovered st = [] →
  main st
  = (Ok (),
     mkState (world st)
       (trace st
        ++ [EvPrint (py "Senzu AI Documentation Generator");
            EvPrint (str_mul (py "=") 50);
            EvGlob PUML_DIR (py "*.puml");
            EvPrint (py "No .puml files found in " ++ path_str PUML_DIR)])).
Proof. apply main_without_sources. Qed.

(** X8. A run touches only its three directories: it reads only the
    sources it found, makes only the image and the page directory, runs the
    renderer only on a source it found with the image directory as output,
    and writes only the index and the pages of sources it found, all of
    them directly in the page directory. *)
Theorem X8_run_stays_in_its_directories st :
  Forall (allowed (discovered st)) (events_of main st)
  ∧ (∀ p text, (p, text) ∈ writes (events_of main st) →
       ∃ name, p = path_div OUTPUT_MD_DIR name)
  ∧ (∀ cmd, cmd ∈ renders (events_of main st) →
       ∃ f, f ∈ discovered st ∧ cmd = plantuml_cmd f OUTPUT_IMG_DIR)
  ∧ (∀ p, p ∈ reads (events_of main st) → p ∈ discovered st).
Proof.
  destruct (main_events st) as (evs & E & A & _).
  rewrite (events_of_eq _ _ _ E). split; [done|].
  rewrite Forall_forall in A. repeat split.
  - intros p text [ev [Hev Hw]]%list_elem_of_omap.
    destruct ev; try done. injection Hw as -> ->.
    destruct (A _ Hev) as [[-> _]|(f & _ & ->)]; by eexists.
  - intros cmd [ev [Hev Hw]]%list_elem_of_omap.
    destruct ev; try done. injection Hw as ->. exact (A _ Hev).
  - intros p [ev [Hev Hw]]%list_elem_of_omap.
    destruct ev; try done. injection Hw as ->. exact (A _ Hev).
Qed.

(** X9. For each source it reads, in order, a run starts the renderer at
    most once, on that source, and writes at most one file after that
    start, the page of that source; a failed render is not tried again and
    no source is rendered twice. The only other write is the index, after
    all of them. So the renderer starts are at most as many as the sources,
    and the writes at most one more than the starts. *)
Theorem X9_one_render_per_source st :
  (∃ blocks tail,
     steps (events_of main st) = concat blocks ++ tail
     ∧ Forall2 (λ f block, block `prefix_of` source_steps f)
         (reads (events_of main st)) blocks
     ∧ tail `prefix_of` [inr (path_div OUTPUT_MD_DIR (py "README.md"))]
     ∧ reads (events_of main st) `prefix_of` discovered st)
  ∧ (length (renders (events_of main st)) ≤ length (discovered st))%nat
  ∧ (length (writes (events_of main st))
     ≤ length (renders (events_of main st)) + 1)%nat.
Proof.
  split.
  - destruct (main_steps st) as (evs & blocks & tail & E & S & F & T & P).
    rewrite (events_of_eq _ _ _ E). by exists blocks, tail.
  - destruct (main_events st) as (evs & E & _ & R & W & _).
    by rewrite (events_of_eq _ _ _ E).
Qed.

(** X10. The sources are the files of the glob, each once, in ascending
    order of their paths; a run reads them in this order, each at most
    once, and a run that returns has read every one of them. *)
Theorem X10_sources_read_in_order st :
  discovered st ≡ₚ os_glob PUML_DIR (py "*.puml") (world st)
  ∧ StronglySorted path_le (discovered st)
  ∧ reads (events_of main st) `prefix_of` discovered st
  ∧ (fst (main st) = Ok () → reads (events_of main st) = discovered st).
Proof.
  split; [apply sorted_perm|]. split; [apply sorted_sorted|].
  destruct (main_events st) as (evs & E & _ & _ & _ & P & O & _).
  by rewrite (events_of_eq _ _ _ E).
Qed.


(** X13. The render step makes its calls in one order and stops at the
    first that fails. It makes the output directory; when that raises, the
    renderer is not started. When it returns, the renderer is started, once.
    The image is looked for exactly when the renderer returned with code
    zero. The step makes no other call (it reads and writes no file), and
    it leaves the world as its last call left it. *)
Theorem X13_render_call_order (puml_file output_dir : Path) st :
  let png := path_div output_dir (path_stem puml_file ++ py ".png") in
  let cmd := plantuml_cmd puml_file output_dir in
  let evs := events_of (generate_png_from_puml puml_file output_dir) st in
  let after := world (snd (generate_png_from_puml puml_file output_dir st)) in
  match os_mkdir output_dir (world st) with
  | (Raise _, w1) => evs = [EvMkdir output_dir] ∧ after = w1
  | (Ok _, w1) =>
      match os_run cmd w1 with
      | (Raise _, w2) => evs = [EvMkdir output_dir; EvRun cmd] ∧ after = w2
      | (Ok result, w2) =>
          evs = (if bool_decide (returncode result = 0%Z)
                 then [EvMkdir output_dir; EvRun cmd; EvExists png]
                 else [EvMkdir output_dir; EvRun cmd])
          ∧ after = w2
      end
  end.
Proof.
  intros png cmd evs after. subst evs after. unfold events_of.
  rewrite generate_png_from_puml_unfold. fold png cmd. cbv zeta.
  destruct (os_mkdir _ _) as [[[]|e] w1]; cbn [fst snd trace world];
    [|by rewrite drop_app_length].
  destruct (os_run cmd w1) as [[result|e] w2]; cbn [fst snd trace world];
    [|by rewrite drop_app_length].
  case_bool_decide as Hrc; cbn [fst snd trace world].
  - rewrite bool_decide_eq_false_2 by done. by rewrite drop_app_length.
  - rewrite bool_decide_eq_true_2
      by (destruct (decide (returncode result = 0%Z)); [done | by destruct Hrc]).
    destruct (os_exists png w2); cbn [fst snd trace world];
      by rewrite drop_app_length.
Qed.

Lemma pages_sublist (log : list (Path * Metadata * PageOutcome)) :
  (pages log).*1 `sublist_of` (path_stem <$> log.*1.*1).
Proof.
  induction log as [|[[f md] [|e]] log IH]; simpl.
  - constructor.
  - by apply sublist_skip.
  - by apply sublist_cons.
Qed.

(** X12. The loop only appends to the list of generated pages: what it
    appends are names of the sources, in the order of the sources and at
    most one for each. *)
Theorem X12_pages_follow_the_sources (files : list Path) docs s docs' s' :
  for_puml_files files docs s = (Ok docs', s') →
  ∃ new,
    docs' = docs ++ new
    ∧ new.*1 `sublist_of` (path_stem <$> files)
    ∧ (length docs' ≤ length docs + length files)%nat.
Proof.
  intros L. destruct (for_puml_files_pages _ _ _ _ _ L) as [Hf ->].
  exists (pages (attempts files docs s)).
  pose proof (pages_sublist (attempts files docs s)) as S.
  rewrite Hf in S. split; [done|]. split; [done|].
  apply sublist_length in S. rewrite !length_fmap in S.
  rewrite length_app. lia.
Qed.

End Run.

Lemma X7_no_sources_returns_early_witness :
  main (mkState (Sim.mkSim [] [] [] []) [])
  = (Ok (),
     mkState (Sim.mkSim [] [] [] [])
       ([] ++ [EvPrint (py "Senzu AI Documentation Generator");
               EvPrint (str_mul (py "=") 50);
               EvGlob PUML_DIR (py "*.puml");
               EvPrint (py "No .puml files found in " ++ path_str PUML_DIR)])).
Proof.
  apply (X7_no_sources_returns_early (mkState (Sim.mkSim [] [] [] []) [])).
  by vm_compute.
Defined.

Lemma X12_pages_follow_the_sources_witness :
  ∃ new,
    pages (attempts (discovered Sim.beta_broken) []
             (after_header Sim.beta_broken))
    = [] ++ new
    ∧ new.*1 `sublist_of` (path_stem <$> discovered Sim.beta_broken)
    ∧ (length (pages (attempts (discovered Sim.beta_broken) []
                        (after_header Sim.beta_broken)))
       ≤ length (@nil (str * str)) + length (discovered Sim.beta_broken))%nat.
Proof.
  apply (X12_pages_follow_the_sources (discovered Sim.beta_broken) []
           (after_header Sim.beta_broken) _
           (snd (for_puml_files (discovered Sim.beta_broken) []
                   (after_header Sim.beta_broken)))).
  by vm_compute.
Defined.


Example readme_page_is_replaced :
  (writes (events_of main
             (mkState (Sim.mkSim [(Sim.puml "README", py "title Read me")]
                         [] [] []) []))).*1
  = [path_div OUTPUT_MD_DIR (py "README.md");
     path_div OUTPUT_MD_DIR (py "README.md")].
Proof. by vm_compute. Qed.
